(** * sqlalchemy_csv_normalise: a shallow embedding and its properties

    The embedding follows [sqlalchemy_csv_normalise/__init__.py].  Schema
    objects (tables, columns, foreign keys) are records; the metadata that
    SQLAlchemy keeps behind [inspect(table)] and [fk.column] is an explicit
    finite map from table names to tables.  Row dictionaries are finite maps
    from column names to Python values, and Python exceptions are an error
    monad. *)

From Stdlib Require Import ZArith String List.
From stdpp Require Import gmap strings list fin_maps pretty.
Import ListNotations.
Local Open Scope string_scope.
Local Open Scope list_scope.

(** ** Python values and exceptions *)

(** The values a row dictionary holds.  A [datetime] object is identified
    with its canonical text, which is what [str] returns for it. *)
Inductive Value : Type :=
  | VNone
  | VBool (b : bool)
  | VInt (z : Z)
  | VStr (s : string)
  | VDateTime (iso : string).

#[global] Instance Value_eq_dec : EqDecision Value.
Proof. solve_decision. Defined.

Inductive Exception : Type :=
  | KeyError (key : Value)
  | IndexError
  | NoReferencedTableError (tbl : string)
  | NoReferencedColumnError (tbl col : string)
  | ParserError (text : string).

Inductive Result (A : Type) : Type :=
  | Ok (a : A)
  | Raise (e : Exception).
Arguments Ok {A} a.
Arguments Raise {A} e.

Definition bind {A B} (r : Result A) (k : A -> Result B) : Result B :=
  match r with
  | Ok a => k a
  | Raise e => Raise e
  end.

Notation "'let*' x ':=' r 'in' k" := (bind r (fun x => k))
  (at level 10, x name, r at level 100, k at level 200).

Definition is_Ok {A} (r : Result A) : Prop := exists a, r = Ok a.
Definition is_KeyError {A} (r : Result A) : Prop := exists k, r = Raise (KeyError k).

(** A row: the [dict] from column name to value. *)
Abbreviation Row := (gmap string Value).

(** ** Schema metadata *)

(** [c.type.python_type] for the column types the code distinguishes. *)
Inductive PyType : Type :=
  | int_t | str_t | bool_t | date_t | datetime_t | other_t.

(** A [ForeignKey] names its target column; [fk.column] resolves it. *)
Record ForeignKey : Type := {
  fk_table : string;
  fk_colname : string
}.

Record Column : Type := {
  name : string;
  table : string;                  (* name of the owning table *)
  primary_key : bool;
  unique : bool;
  nullable : bool;
  foreign_keys : list ForeignKey;
  python_type : PyType
}.

Record Table : Type := {
  tablename : string;
  columns : list Column            (* [inspect(table).columns], in order *)
}.

#[global] Instance PyType_eq_dec : EqDecision PyType.
Proof. solve_decision. Defined.
#[global] Instance ForeignKey_eq_dec : EqDecision ForeignKey.
Proof. solve_decision. Defined.
#[global] Instance Column_eq_dec : EqDecision Column.
Proof. solve_decision. Defined.

(** The tables known to the declarative base. *)
Abbreviation MetaData := (gmap string Table).

(** Column names are the keys of [inspect(table).columns], hence distinct. *)
Definition distinct_names (t : Table) : Prop := NoDup (map name (columns t)).

(** Truthiness of a collection such as [c.foreign_keys]. *)
Definition truthy {A} (l : list A) : bool :=
  match l with [] => false | _ :: _ => true end.

(** ** columns_partition *)

Definition partition_step (acc : list Column * list Column * list Column)
    (c : Column) : list Column * list Column * list Column :=
  let '(pks, fks, oth) := acc in
  if truthy (foreign_keys c) then (pks, fks ++ [c], oth)
  else if primary_key c then (pks ++ [c], fks, oth)
  else (pks, fks, oth ++ [c]).

Definition columns_partition (t : Table)
    : list Column * list Column * list Column :=
  fold_left partition_step (columns t) ([], [], []).

Definition part_primary_keys (t : Table) : list Column := (columns_partition t).1.1.
Definition part_foreign_keys (t : Table) : list Column := (columns_partition t).1.2.
Definition part_other (t : Table) : list Column := (columns_partition t).2.

(** The three classes, as predicates on a column. *)
Definition is_fk (c : Column) : bool := truthy (foreign_keys c).
Definition is_pk (c : Column) : bool := negb (is_fk c) && primary_key c.
Definition is_other (c : Column) : bool := negb (is_fk c) && negb (primary_key c).

(** ** find_natural_key *)

Definition find_natural_key (t : Table) : list Column :=
  let '(pks, _, oth) := columns_partition t in
  let natural_keys := List.filter unique oth in
  if Nat.eqb (length natural_keys) 1 then natural_keys else pks.

(** ** _tidy_colname *)

Definition newline : string := String (Ascii.ascii_of_nat 10) EmptyString.

(** [re.sub('_id$', '', n)]: the suffix [_id] is dropped where it ends the
    string, or where only a final newline follows it. *)
Fixpoint _tidy_colname (n : string) : string :=
  if String.eqb n "_id" then ""
  else if String.eqb n ("_id" ++ newline)%string then newline
  else match n with
       | EmptyString => EmptyString
       | String a rest => String a (_tidy_colname rest)
       end.

(** ** _normalisation_info *)

(** [col.label(name)]: a column projected under another name. *)
Record Label : Type := {
  element : Column;
  label_name : string
}.

Record Plan : Type := {
  simple_cols : list Column;
  denormalised_cols : list Label;
  to_tables : list Table;
  to_columns : list Column;
  from_columns : list Column
}.

(** [fk.column]: the target column, looked up in the metadata. *)
Definition fk_column (md : MetaData) (r : ForeignKey) : Result Column :=
  match md !! fk_table r with
  | None => Raise (NoReferencedTableError (fk_table r))
  | Some t =>
      match List.find (fun c => String.eqb (name c) (fk_colname r)) (columns t) with
      | Some c => Ok c
      | None => Raise (NoReferencedColumnError (fk_table r) (fk_colname r))
      end
  end.

(** [column.table]: the table that owns a column. *)
Definition column_table (md : MetaData) (c : Column) : Result Table :=
  match md !! table c with
  | Some t => Ok t
  | None => Raise (NoReferencedTableError (table c))
  end.

(** [list(fk.foreign_keys)[0]]. *)
Definition first_foreign_key (fk : Column) : Result ForeignKey :=
  match foreign_keys fk with
  | [] => Raise IndexError
  | r :: _ => Ok r
  end.

(** The test [if [ c for c in keys if c.primary_key ]]. *)
Definition has_primary_key (keys : list Column) : bool :=
  truthy (List.filter primary_key keys).

Definition maybe_primary_keys (t : Table) : list Column :=
  if has_primary_key (find_natural_key t) then part_primary_keys t else [].

(** One turn of the loop [for fk in foreign_keys]. *)
Definition fk_step (md : MetaData) (p : Plan) (fk : Column) : Result Plan :=
  let* r := first_foreign_key fk in
  let* to_column := fk_column md r in
  let* to_table := column_table md to_column in
  let remote_natural_keys := find_natural_key to_table in
  if has_primary_key remote_natural_keys then
    Ok {| simple_cols := simple_cols p ++ [fk];
          denormalised_cols := denormalised_cols p;
          to_tables := to_tables p;
          to_columns := to_columns p;
          from_columns := from_columns p |}
  else
    match remote_natural_keys with
    | [] => Raise IndexError
    | nk :: _ =>
        Ok {| simple_cols := simple_cols p;
              denormalised_cols :=
                denormalised_cols p ++ [{| element := nk; label_name := name fk |}];
              to_tables := to_tables p ++ [to_table];
              to_columns := to_columns p ++ [to_column];
              from_columns := from_columns p ++ [fk] |}
    end.

Fixpoint fk_loop (md : MetaData) (fks : list Column) (p : Plan) : Result Plan :=
  match fks with
  | [] => Ok p
  | fk :: rest => let* p' := fk_step md p fk in fk_loop md rest p'
  end.

Definition _normalisation_info (md : MetaData) (t : Table) : Result Plan :=
  let simple := maybe_primary_keys t ++ part_other t in
  fk_loop md (part_foreign_keys t)
    {| simple_cols := simple; denormalised_cols := []; to_tables := [];
       to_columns := []; from_columns := [] |}.

(** ** denormalise_prepare *)

Inductive Selectable : Type :=
  | SelColumn (c : Column)
  | SelLabel (l : Label).

(** A query is the list of projected columns and the joins added to it.
    [_denormalise_query] is embedded as the requests it makes of the
    session, in order.  Whether SQLAlchemy accepts a join is decided by the
    library ([Query.join] refuses, for one, to join a table to itself), and
    is not part of the embedding: the properties of [denormalise_prepare]
    on tables with denormalised columns are stated for the case that it
    returned. *)
Record Query : Type := {
  q_columns : list Selectable;
  q_joins : list (Table * Column * Column)
}.

Definition _denormalise_query (cols : list Selectable) (tts : list Table)
    (tcs fcs : list Column) : Query :=
  {| q_columns := cols; q_joins := zip (zip tts tcs) fcs |}.

Definition denormalise_prepare (md : MetaData) (t : Table)
    (colname_tidier : string -> string) : Result (Query * list string) :=
  let* p := _normalisation_info md t in
  let q := _denormalise_query
             (map SelColumn (simple_cols p) ++ map SelLabel (denormalised_cols p))
             (to_tables p) (to_columns p) (from_columns p) in
  let col_names := map name (simple_cols p)
                   ++ map (fun l => colname_tidier (label_name l)) (denormalised_cols p) in
  Ok (q, col_names).

(** ** renormalise_prepare *)

(** The session: for each table name, the rows the table holds. *)
Abbreviation Session := (gmap string (list Row)).

(** [str(v)]. *)
Definition py_str (v : Value) : string :=
  match v with
  | VNone => "None"
  | VBool true => "True"
  | VBool false => "False"
  | VInt z => pretty z
  | VStr s => s
  | VDateTime iso => iso
  end.

(** [session.query(natural_key, surrogate_key).all()]: both columns belong
    to the remote table; an absent cell reads as NULL. *)
Definition lookup_query_all (sess : Session) (natural_key : Label)
    (surrogate_key : Column) : list (Value * Value) :=
  map (fun r : Row =>
         (default VNone (r !! name (element natural_key)),
          default VNone (r !! name surrogate_key)))
      (default [] (sess !! table surrogate_key)).

(** [{ str(nat): surr for nat, surr in ... }]: a later pair overrides. *)
Definition build_lookup (pairs : list (Value * Value)) : gmap string Value :=
  fold_left (fun (m : gmap string Value) '(nat, surr) => <[py_str nat := surr]> m)
            pairs ∅.

Definition Lookup : Type := string * string * gmap string Value.

Definition renormalise_lookups (sess : Session) (colname_tidier : string -> string)
    (p : Plan) : list Lookup :=
  map (fun '(natural_key, surrogate_key) =>
         (colname_tidier (label_name natural_key), label_name natural_key,
          build_lookup (lookup_query_all sess natural_key surrogate_key)))
      (zip (denormalised_cols p) (to_columns p)).

(** [lookup[v]]: the keys are strings, so only a string can hit. *)
Definition lookup_getitem (lookup : gmap string Value) (v : Value) : Result Value :=
  match v with
  | VStr s => match lookup !! s with
              | Some surr => Ok surr
              | None => Raise (KeyError v)
              end
  | _ => Raise (KeyError v)
  end.

(** [c.pop(k)]. *)
Definition dict_pop (c : Row) (k : string) : Result (Value * Row) :=
  match c !! k with
  | Some v => Ok (v, delete k c)
  | None => Raise (KeyError (VStr k))
  end.

Fixpoint _row_maker (lookups : list Lookup) (c : Row) : Result Row :=
  match lookups with
  | [] => Ok c
  | (csv_name, sql_name, lookup) :: rest =>
      let* vc := dict_pop c csv_name in
      let* surr := lookup_getitem lookup vc.1 in
      _row_maker rest (<[sql_name := surr]> vc.2)
  end.

Definition renormalise_prepare (sess : Session) (md : MetaData) (t : Table)
    (colname_tidier : string -> string) : Result (Row -> Result Row) :=
  let* p := _normalisation_info md t in
  Ok (_row_maker (renormalise_lookups sess colname_tidier p)).

(** ** empty_deleter *)

Definition nullables (t : Table) : list string :=
  map name (List.filter nullable (columns t)).

Fixpoint _row_cleaner (cols : list string) (c : Row) : Result Row :=
  match cols with
  | [] => Ok c
  | col :: rest =>
      match c !! col with
      | None => Raise (KeyError (VStr col))
      | Some v =>
          if bool_decide (v = VStr "") then _row_cleaner rest (delete col c)
          else _row_cleaner rest c
      end
  end.

Definition empty_deleter (t : Table) : Row -> Result Row :=
  _row_cleaner (nullables t).

(** ** type_coercer *)

Section TypeCoercer.

(** [dateutil.parser.parse], an external library function. *)
Variable dateutil_parse : string -> Result Value.

(** The table [_COERCE], keyed by Python type. *)
Definition _COERCE (ty : PyType) : option (string -> Result Value) :=
  match ty with
  | datetime_t => Some dateutil_parse
  | date_t => Some dateutil_parse
  | bool_t => Some (fun v => Ok (VBool (String.eqb v "True")))
  | _ => None
  end.

Definition coerceables (t : Table) : gmap string (string -> Result Value) :=
  fold_left
    (fun (m : gmap string (string -> Result Value)) c =>
       <[name c := default (fun x => Ok (VStr x)) (_COERCE (python_type c))]> m)
    (columns t) ∅.

(** One turn of [for col in c]: only a string is coerced.  Each key is
    visited once, so the value read is the one of the input row. *)
Definition coerce_entry (cs : gmap string (string -> Result Value))
    (col : string) (v : Value) (acc : Result Row) : Result Row :=
  let* c := acc in
  match v with
  | VStr s =>
      match cs !! col with
      | None => Raise (KeyError (VStr col))
      | Some f => let* v' := f s in Ok (<[col := v']> c)
      end
  | _ => Ok c
  end.

Definition type_coercer (t : Table) : Row -> Result Row :=
  fun d => map_fold (coerce_entry (coerceables t)) (Ok d) d.

End TypeCoercer.

(** ** The schema of the test suite *)

Module TestSchema.

Definition mk_column (tbl nm : string) (pk uq nl : bool)
    (fks : list ForeignKey) (ty : PyType) : Column :=
  {| name := nm; table := tbl; primary_key := pk; unique := uq;
     nullable := nl; foreign_keys := fks; python_type := ty |}.

Definition LookupNoNKTable : Table :=
  {| tablename := "lookup_nonk_table";
     columns :=
       [ mk_column "lookup_nonk_table" "id" true false false [] int_t;
         mk_column "lookup_nonk_table" "description" false false false [] str_t ] |}.

Definition LookupTable : Table :=
  {| tablename := "lookup_table";
     columns :=
       [ mk_column "lookup_table" "id" true false false [] int_t;
         mk_column "lookup_table" "description" false true false [] str_t ] |}.

Definition NormalisedTable : Table :=
  {| tablename := "normalised_table";
     columns :=
       [ mk_column "normalised_table" "id" true false false [] int_t;
         mk_column "normalised_table" "username" false true false [] str_t;
         mk_column "normalised_table" "name" false false true [] str_t;
         mk_column "normalised_table" "accounttype_id" false false false
           [ {| fk_table := "lookup_table"; fk_colname := "id" |} ] int_t;
         mk_column "normalised_table" "age" false false false [] int_t;
         mk_column "normalised_table" "valid" false false false [] bool_t;
         mk_column "normalised_table" "nonk_id" false false true
           [ {| fk_table := "lookup_nonk_table"; fk_colname := "id" |} ] int_t ] |}.

Definition metadata : MetaData :=
  <[ "normalised_table" := NormalisedTable ]>
    (<[ "lookup_table" := LookupTable ]>
       (<[ "lookup_nonk_table" := LookupNoNKTable ]> ∅)).

Definition row (kvs : list (string * Value)) : Row := list_to_map kvs.

(** The rows the fixture [db_session] inserts. *)
Definition db_session : Session :=
  <[ "lookup_table" :=
       [ row [("id", VInt 1); ("description", VStr "admin")];
         row [("id", VInt 2); ("description", VStr "user")] ] ]>
    (<[ "lookup_nonk_table" :=
          [ row [("id", VInt 1); ("description", VStr "one")];
            row [("id", VInt 2); ("description", VStr "two")] ] ]> ∅).

End TestSchema.

(** ** Auxiliary definitions for the properties *)

(** The candidates of [find_natural_key]: the unique "other" columns. *)
Definition unique_others (t : Table) : list Column :=
  List.filter unique (part_other t).

(** A candidate of [find_natural_key], read off the column's own flags:
    flagged unique, not flagged primary key, no foreign-key reference. *)
Definition unique_non_key (c : Column) : bool :=
  unique c && negb (primary_key c) && bool_decide (foreign_keys c = []).

(** A primary key in the classifier's sense: flagged primary key, no
    foreign-key reference. *)
Definition primary_non_foreign (c : Column) : bool :=
  primary_key c && bool_decide (foreign_keys c = []).

(** The target column and table of a foreign-key column, as the loop
    resolves them. *)
Definition fk_target (md : MetaData) (fk : Column) : Result (Column * Table) :=
  let* r := first_foreign_key fk in
  let* to_column := fk_column md r in
  let* to_table := column_table md to_column in
  Ok (to_column, to_table).

(** The loop's test: the remote natural key holds a primary-key column. *)
Definition passes_raw (md : MetaData) (fk : Column) : bool :=
  match fk_target md fk with
  | Ok (_, to_table) => has_primary_key (find_natural_key to_table)
  | Raise _ => false
  end.

Definition add_raw (p : Plan) (fk : Column) : Plan :=
  {| simple_cols := simple_cols p ++ [fk];
     denormalised_cols := denormalised_cols p;
     to_tables := to_tables p;
     to_columns := to_columns p;
     from_columns := from_columns p |}.

Definition add_denormalised (p : Plan) (fk nk to_column : Column) (to_table : Table)
    : Plan :=
  {| simple_cols := simple_cols p;
     denormalised_cols :=
       denormalised_cols p ++ [{| element := nk; label_name := name fk |}];
     to_tables := to_tables p ++ [to_table];
     to_columns := to_columns p ++ [to_column];
     from_columns := from_columns p ++ [fk] |}.

(** The rule for the primary keys as the specification words it: they are
    kept when the natural key is not the primary key. *)
Definition spec_maybe_primary_keys (t : Table) : list Column :=
  if decide (find_natural_key t = part_primary_keys t) then []
  else part_primary_keys t.

(** A foreign key the loop can place: it resolves to a target whose
    natural key is not empty. *)
Definition fk_plannable (md : MetaData) (fk : Column) : Prop :=
  exists tc tt, fk_target md fk = Ok (tc, tt) /\ find_natural_key tt <> [].

(** *** A foreign key to a table whose primary key is itself a foreign key *)

Module InheritanceSchema.

Import TestSchema.

Definition Employee : Table :=
  {| tablename := "employee";
     columns := [ mk_column "employee" "id" true false false [] int_t;
                  mk_column "employee" "salary" false false false [] int_t ] |}.

(** [id = Column(Integer, ForeignKey(Employee.id), primary_key=True)] *)
Definition Manager : Table :=
  {| tablename := "manager";
     columns := [ mk_column "manager" "id" true false false
                    [ {| fk_table := "employee"; fk_colname := "id" |} ] int_t;
                  mk_column "manager" "budget" false false false [] int_t ] |}.

Definition Project : Table :=
  {| tablename := "project";
     columns := [ mk_column "project" "id" true false false [] int_t;
                  mk_column "project" "manager_id" false false false
                    [ {| fk_table := "manager"; fk_colname := "id" |} ] int_t ] |}.

Definition metadata : MetaData :=
  <[ "project" := Project ]>
    (<[ "manager" := Manager ]> (<[ "employee" := Employee ]> ∅)).

End InheritanceSchema.

(** The three parts of an entry of [lookups]. *)
Definition csv_of (l : Lookup) : string := l.1.1.
Definition sql_of (l : Lookup) : string := l.1.2.
Definition map_of (l : Lookup) : gmap string Value := l.2.

(** No tidied name occurs twice, no original name occurs twice, and no
    original name is the tidied name of a later entry: each turn of the
    loop then reads the value the input row holds. *)
Fixpoint names_compatible (lookups : list Lookup) : Prop :=
  match lookups with
  | [] => True
  | l :: rest =>
      (csv_of l ∉ map csv_of rest)
      /\ (sql_of l ∉ map csv_of rest)
      /\ (sql_of l ∉ map sql_of rest)
      /\ names_compatible rest
  end.

(** Every tidied name holds a text that its lookup map resolves. *)
Definition all_resolved (lookups : list Lookup) (d : Row) : Prop :=
  forall l, l ∈ lookups ->
    exists s v, d !! csv_of l = Some (VStr s) /\ map_of l !! s = Some v.

(** *** Foreign keys whose tidied and original names meet *)

Module ClashSchema.

Import TestSchema.

(** A lookup table keyed by a text code. *)
Definition Codes : Table :=
  {| tablename := "codes";
     columns := [ mk_column "codes" "code" true false false [] str_t;
                  mk_column "codes" "label" false true false [] str_t ] |}.

Definition Kinds : Table :=
  {| tablename := "kinds";
     columns := [ mk_column "kinds" "id" true false false [] int_t;
                  mk_column "kinds" "label" false true false [] str_t ] |}.

(** Two foreign keys: [a_id], and [a_id_id], which tidies to [a_id]. *)
Definition Items : Table :=
  {| tablename := "items";
     columns := [ mk_column "items" "id" true false false [] int_t;
                  mk_column "items" "title" false true false [] str_t;
                  mk_column "items" "a_id" false false false
                    [ {| fk_table := "codes"; fk_colname := "code" |} ] str_t;
                  mk_column "items" "a_id_id" false false false
                    [ {| fk_table := "kinds"; fk_colname := "id" |} ] int_t ] |}.

Definition metadata : MetaData :=
  <[ "items" := Items ]> (<[ "kinds" := Kinds ]> (<[ "codes" := Codes ]> ∅)).

(** Code [z] is labelled [x]; kind 7 is labelled [z]. *)
Definition session_z : Session :=
  <[ "codes" := [ row [("code", VStr "z"); ("label", VStr "x")] ] ]>
    (<[ "kinds" := [ row [("id", VInt 7); ("label", VStr "z")] ] ]> ∅).

(** Code [z] is labelled [x]; kind 7 is labelled [y]. *)
Definition session_y : Session :=
  <[ "codes" := [ row [("code", VStr "z"); ("label", VStr "x")] ] ]>
    (<[ "kinds" := [ row [("id", VInt 7); ("label", VStr "y")] ] ]> ∅).

Definition input : Row := row [("title", VStr "t"); ("a", VStr "x"); ("a_id", VStr "y")].

(** A foreign key whose name does not end in [_id]. *)
Definition Users : Table :=
  {| tablename := "users";
     columns := [ mk_column "users" "id" true false false [] int_t;
                  mk_column "users" "username" false true false [] str_t ] |}.

Definition Posts : Table :=
  {| tablename := "posts";
     columns := [ mk_column "posts" "id" true false false [] int_t;
                  mk_column "posts" "slug" false true false [] str_t;
                  mk_column "posts" "owner" false false false
                    [ {| fk_table := "users"; fk_colname := "id" |} ] int_t ] |}.

Definition metadata_posts : MetaData :=
  <[ "posts" := Posts ]> (<[ "users" := Users ]> ∅).

Definition session_posts : Session :=
  <[ "users" := [ row [("id", VInt 7); ("username", VStr "bob")] ] ]> ∅.

(** A simple column [accounttype] beside the foreign key [accounttype_id],
    which tidies to [accounttype]. *)
Definition Members : Table :=
  {| tablename := "members";
     columns := [ mk_column "members" "id" true false false [] int_t;
                  mk_column "members" "accounttype" false false false [] str_t;
                  mk_column "members" "accounttype_id" false false false
                    [ {| fk_table := "lookup_table"; fk_colname := "id" |} ] int_t ] |}.

Definition metadata_members : MetaData :=
  <[ "members" := Members ]> TestSchema.metadata.

End ClashSchema.

(** The value the loop leaves under a key. *)
Definition coerced (cs : gmap string (string -> Result Value)) (d : Row)
    (k : string) : option Value :=
  match d !! k with
  | Some (VStr s) =>
      match cs !! k with
      | Some f => match f s with Ok v => Some v | Raise _ => None end
      | None => None
      end
  | other => other
  end.

Definition boolean_column (t : Table) (k : string) : Prop :=
  exists c, c ∈ columns t /\ name c = k /\ python_type c = bool_t.

(** What the planner's loop records for a denormalised foreign key: the
    key itself, its label, the target table and the target column. *)
Definition Entry : Type := Column * Label * Table * Column.

Definition e_fk (e : Entry) : Column := e.1.1.1.
Definition e_label (e : Entry) : Label := e.1.1.2.
Definition e_table (e : Entry) : Table := e.1.2.
Definition e_column (e : Entry) : Column := e.2.

(** An entry as the loop builds it: the target is the resolved one, the
    loop's test failed, the label carries the key's name and projects the
    first column of the target's natural key. *)
Definition entry_ok (md : MetaData) (e : Entry) : Prop :=
  fk_target md (e_fk e) = Ok (e_column e, e_table e)
  /\ passes_raw md (e_fk e) = false
  /\ label_name (e_label e) = name (e_fk e)
  /\ exists rest, find_natural_key (e_table e) = element (e_label e) :: rest.

(** A column whose text [type_coercer] hands to [dateutil.parser.parse]. *)
Definition parsed_type (ty : PyType) : bool :=
  match ty with
  | date_t | datetime_t => true
  | _ => false
  end.

(** The texts under which [build_lookup] files the pairs. *)
Definition lookup_keys (pairs : list (Value * Value)) : list string :=
  map (fun nv : Value * Value => py_str nv.1) pairs.

(** * Properties *)

(** ** The column classifier *)

Lemma partition_fold (l : list Column) (pks fks oth : list Column) :
  fold_left partition_step l (pks, fks, oth)
  = (pks ++ List.filter is_pk l, fks ++ List.filter is_fk l,
     oth ++ List.filter is_other l).
Proof.
  revert pks fks oth.
  induction l as [|c l IH]; intros pks fks oth; simpl.
  - by rewrite !app_nil_r.
  - unfold is_pk, is_other, is_fk.
    destruct (truthy (foreign_keys c)); simpl.
    + rewrite IH. by rewrite <- app_assoc.
    + destruct (primary_key c); simpl; rewrite IH; by rewrite <- app_assoc.
Qed.

Lemma columns_partition_filter (t : Table) :
  columns_partition t
  = (List.filter is_pk (columns t), List.filter is_fk (columns t),
     List.filter is_other (columns t)).
Proof. unfold columns_partition. by rewrite partition_fold. Qed.

Lemma part_primary_keys_filter t : part_primary_keys t = List.filter is_pk (columns t).
Proof. unfold part_primary_keys. by rewrite columns_partition_filter. Qed.

Lemma part_foreign_keys_filter t : part_foreign_keys t = List.filter is_fk (columns t).
Proof. unfold part_foreign_keys. by rewrite columns_partition_filter. Qed.

Lemma part_other_filter t : part_other t = List.filter is_other (columns t).
Proof. unfold part_other. by rewrite columns_partition_filter. Qed.

(** Exactly one of the three class predicates holds of a column. *)
Lemma class_exclusive (c : Column) :
  (is_fk c = true /\ is_pk c = false /\ is_other c = false)
  \/ (is_fk c = false /\ is_pk c = true /\ is_other c = false)
  \/ (is_fk c = false /\ is_pk c = false /\ is_other c = true).
Proof.
  unfold is_pk, is_other.
  destruct (is_fk c), (primary_key c); simpl; auto.
Qed.

Lemma three_way_split (l : list Column) :
  l ≡ₚ List.filter is_pk l ++ List.filter is_fk l ++ List.filter is_other l.
Proof.
  induction l as [|c l IH]; simpl; [done|].
  destruct (class_exclusive c) as [(-> & -> & ->)|[(-> & -> & ->)|(-> & -> & ->)]];
    simpl.
  - rewrite <- Permutation_middle. by constructor.
  - by constructor.
  - rewrite app_assoc, <- Permutation_middle, <- app_assoc. by constructor.
Qed.

Lemma in_filter_iff (f : Column -> bool) (c : Column) (l : list Column) :
  c ∈ List.filter f l <-> c ∈ l /\ f c = true.
Proof. rewrite !list_elem_of_In. apply filter_In. Qed.

(** A filtered list keeps the order of the list it is taken from. *)
Lemma filter_sublist (f : Column -> bool) (l : list Column) :
  sublist (List.filter f l) l.
Proof.
  induction l as [|c l IH]; simpl; [constructor|].
  destruct (f c); by constructor.
Qed.

(** C8: [columns_partition] returns three ordered sequences: the foreign
    keys are the columns with a foreign-key reference (whatever their
    primary-key flag), the primary keys are the remaining columns flagged
    primary key, and the others are the rest.  Each sequence keeps the
    table's column order, together they hold every column as often as the
    table does, and no column is in two of them. *)
Theorem columns_partition_classifies (t : Table) :
  let '(pks, fks, oth) := columns_partition t in
  fks = List.filter (fun c => truthy (foreign_keys c)) (columns t)
  /\ pks = List.filter (fun c => negb (truthy (foreign_keys c)) && primary_key c)
                       (columns t)
  /\ oth = List.filter (fun c => negb (truthy (foreign_keys c))
                                 && negb (primary_key c)) (columns t)
  /\ sublist pks (columns t) /\ sublist fks (columns t) /\ sublist oth (columns t)
  /\ columns t ≡ₚ pks ++ fks ++ oth
  /\ (forall c, c ∈ columns t <-> c ∈ pks \/ c ∈ fks \/ c ∈ oth)
  /\ (forall c, ~ (c ∈ pks /\ c ∈ fks) /\ ~ (c ∈ pks /\ c ∈ oth)
                /\ ~ (c ∈ fks /\ c ∈ oth)).
Proof.
  rewrite columns_partition_filter.
  split; [done|]. split; [done|]. split; [done|].
  split; [apply filter_sublist|]. split; [apply filter_sublist|].
  split; [apply filter_sublist|].
  split; [apply three_way_split|].
  split.
  - intros c. rewrite !in_filter_iff.
    destruct (class_exclusive c) as [(Hf & Hp & Ho)|[(Hf & Hp & Ho)|(Hf & Hp & Ho)]];
      rewrite Hf, Hp, Ho; intuition congruence.
  - intros c. rewrite !in_filter_iff.
    destruct (class_exclusive c) as [(Hf & Hp & Ho)|[(Hf & Hp & Ho)|(Hf & Hp & Ho)]];
      rewrite Hf, Hp, Ho; intuition congruence.
Qed.

(** ** The natural-key resolver *)

Lemma find_natural_key_unfold (t : Table) :
  find_natural_key t
  = if Nat.eqb (length (unique_others t)) 1 then unique_others t
    else part_primary_keys t.
Proof.
  unfold find_natural_key, unique_others, part_other, part_primary_keys.
  by destruct (columns_partition t) as [[pks fks] oth].
Qed.

Lemma truthy_nil {A} `{EqDecision A} (l : list A) :
  truthy l = negb (bool_decide (l = [])).
Proof. by destruct l. Qed.

Lemma filter_filter (f g : Column -> bool) (l : list Column) :
  List.filter f (List.filter g l) = List.filter (fun c => g c && f c) l.
Proof.
  induction l as [|c l IH]; simpl; [done|].
  destruct (g c); simpl; [|done]. destruct (f c); by rewrite IH.
Qed.

(** The candidates of the resolver and the primary keys of the partition,
    read off the columns' own flags. *)
Lemma unique_others_flags (t : Table) :
  unique_others t = List.filter unique_non_key (columns t).
Proof.
  unfold unique_others. rewrite part_other_filter, filter_filter.
  apply List.filter_ext. intros c.
  unfold is_other, is_fk, unique_non_key. rewrite truthy_nil.
  destruct (unique c), (primary_key c), (bool_decide (foreign_keys c = [])); done.
Qed.

Lemma part_primary_keys_flags (t : Table) :
  part_primary_keys t = List.filter primary_non_foreign (columns t).
Proof.
  rewrite part_primary_keys_filter. apply List.filter_ext. intros c.
  unfold is_pk, is_fk, primary_non_foreign. rewrite truthy_nil.
  destruct (primary_key c), (bool_decide (foreign_keys c = [])); done.
Qed.

(** C3: a table with exactly one column [N] that is flagged unique, is not
    flagged primary key and has no foreign-key reference (a unique "other"
    column of the classifier) has the natural key [[N]].  A table with
    none, or with two or more, has as natural key its primary-key columns
    in the classifier's sense, in table order: the columns flagged primary
    key that have no foreign-key reference.  Where no primary-key column
    of the table has a foreign-key reference, these are all the columns
    flagged primary key. *)
Theorem find_natural_key_spec (t : Table) :
  (forall N, List.filter unique_non_key (columns t) = [N] ->
             find_natural_key t = [N])
  /\ (length (List.filter unique_non_key (columns t)) <> 1 ->
      find_natural_key t = List.filter primary_non_foreign (columns t))
  /\ (length (List.filter unique_non_key (columns t)) <> 1 ->
      (forall c, c ∈ columns t -> primary_key c = true -> foreign_keys c = []) ->
      find_natural_key t = List.filter primary_key (columns t)).
Proof.
  rewrite find_natural_key_unfold, unique_others_flags, part_primary_keys_flags.
  split; [|split].
  - intros N ->. done.
  - intros Hlen. apply Nat.eqb_neq in Hlen. by rewrite Hlen.
  - intros Hlen Hpk. apply Nat.eqb_neq in Hlen. rewrite Hlen.
    apply List.filter_ext_in. intros c Hc. unfold primary_non_foreign.
    destruct (primary_key c) eqn:Hflag; [|done]. simpl.
    apply bool_decide_eq_true. apply Hpk; [by apply list_elem_of_In|done].
Qed.

Lemma find_natural_key_spec_witness :
  let two := {| tablename := "two";
                columns :=
                  [ TestSchema.mk_column "two" "id" true false false [] int_t;
                    TestSchema.mk_column "two" "code" false true false [] str_t;
                    TestSchema.mk_column "two" "label" false true false [] str_t ] |} in
  find_natural_key TestSchema.LookupTable
    = [TestSchema.mk_column "lookup_table" "description" false true false [] str_t]
  /\ find_natural_key TestSchema.LookupNoNKTable
     = [TestSchema.mk_column "lookup_nonk_table" "id" true false false [] int_t]
  /\ find_natural_key two
     = [TestSchema.mk_column "two" "id" true false false [] int_t].
Proof.
  intros two. split; [|split].
  - apply (proj1 (find_natural_key_spec TestSchema.LookupTable)). reflexivity.
  - apply (proj1 (proj2 (find_natural_key_spec TestSchema.LookupNoNKTable))).
    vm_compute. lia.
  - apply (proj2 (proj2 (find_natural_key_spec two))).
    + vm_compute. lia.
    + intros c Hc Hpk. unfold two in Hc. simpl in Hc.
      repeat (apply elem_of_cons in Hc as [->|Hc]; [reflexivity|]).
      by apply elem_of_nil in Hc.
Defined.

(** ** The normalisation planner *)

Lemma fk_step_unfold (md : MetaData) (p : Plan) (fk : Column) :
  fk_step md p fk
  = match fk_target md fk with
    | Raise e => Raise e
    | Ok (to_column, to_table) =>
        if has_primary_key (find_natural_key to_table) then Ok (add_raw p fk)
        else match find_natural_key to_table with
             | [] => Raise IndexError
             | nk :: _ => Ok (add_denormalised p fk nk to_column to_table)
             end
    end.
Proof.
  unfold fk_step, fk_target.
  destruct (first_foreign_key fk) as [r|e]; simpl; [|done].
  destruct (fk_column md r) as [tc|e]; simpl; [|done].
  destruct (column_table md tc) as [tt|e]; simpl; done.
Qed.

(** What one successful turn of the loop did. *)
Lemma fk_step_ok (md : MetaData) (p p' : Plan) (fk : Column) :
  fk_step md p fk = Ok p' ->
  (passes_raw md fk = true /\ p' = add_raw p fk)
  \/ (passes_raw md fk = false
      /\ exists tc tt nk rest,
           fk_target md fk = Ok (tc, tt) /\ find_natural_key tt = nk :: rest
           /\ p' = add_denormalised p fk nk tc tt).
Proof.
  rewrite fk_step_unfold. unfold passes_raw.
  destruct (fk_target md fk) as [[tc tt]|e]; [|done].
  destruct (has_primary_key (find_natural_key tt)) eqn:Hpk.
  - intros [= <-]. by left.
  - destruct (find_natural_key tt) as [|nk rest] eqn:Hnk; [done|].
    intros [= <-]. right. split; [done|]. by exists tc, tt, nk, rest.
Qed.

(** The foreign keys a successful loop passed through raw are those for
    which the test holds, in order; the others were denormalised, in order,
    each labelled with its own column name. *)
Lemma fk_loop_ok (md : MetaData) (fks : list Column) (p p' : Plan) :
  fk_loop md fks p = Ok p' ->
  simple_cols p' = simple_cols p ++ List.filter (passes_raw md) fks
  /\ from_columns p'
     = from_columns p ++ List.filter (fun fk => negb (passes_raw md fk)) fks
  /\ map label_name (denormalised_cols p')
     = map label_name (denormalised_cols p)
       ++ map name (List.filter (fun fk => negb (passes_raw md fk)) fks).
Proof.
  revert p. induction fks as [|fk fks IH]; intros p; simpl.
  - intros [= <-]. by rewrite !app_nil_r.
  - destruct (fk_step md p fk) as [p1|e] eqn:Hstep; simpl; [|done].
    intros Hloop. apply IH in Hloop as (Hs & Hf & Hd).
    apply fk_step_ok in Hstep
      as [[Hraw ->]|(Hraw & tc & tt & nk & rest & _ & _ & ->)];
      rewrite Hraw; simpl in *.
    + rewrite Hs, Hf, Hd. by rewrite <- app_assoc.
    + rewrite Hs, Hf, Hd. rewrite map_app. simpl. by rewrite <- !app_assoc.
Qed.

Lemma other_not_primary (t : Table) (c : Column) :
  c ∈ part_other t -> primary_key c = false.
Proof.
  rewrite part_other_filter, in_filter_iff. unfold is_other.
  intros [_ H]. destruct (primary_key c); [|done].
  by rewrite andb_false_r in H.
Qed.

Lemma filter_none (f : Column -> bool) (l : list Column) :
  (forall c, c ∈ l -> f c = false) -> List.filter f l = [].
Proof.
  induction l as [|c l IH]; intros H; simpl; [done|].
  rewrite (H c) by constructor. apply IH. intros c' Hc'. apply H. by constructor.
Qed.

Lemma filter_all (f : Column -> bool) (l : list Column) :
  (forall c, c ∈ l -> f c = true) -> List.filter f l = l.
Proof.
  induction l as [|c l IH]; intros H; simpl; [done|].
  rewrite (H c) by constructor. f_equal. apply IH. intros c' Hc'. apply H.
  by constructor.
Qed.

Lemma primary_keys_flagged (t : Table) (c : Column) :
  c ∈ part_primary_keys t -> primary_key c = true.
Proof.
  rewrite part_primary_keys_filter, in_filter_iff. unfold is_pk.
  intros [_ H]. by apply andb_true_iff in H as [_ H].
Qed.

(** The test on a natural key holds exactly when the key is the fallback
    and the partition has a primary key at all. *)
Lemma has_primary_key_natural (t : Table) :
  has_primary_key (find_natural_key t)
  = negb (Nat.eqb (length (unique_others t)) 1) && truthy (part_primary_keys t).
Proof.
  rewrite find_natural_key_unfold. unfold has_primary_key.
  destruct (Nat.eqb (length (unique_others t)) 1); simpl.
  - rewrite filter_none; [done|]. intros c Hc.
    apply (other_not_primary t). unfold unique_others in Hc.
    by apply in_filter_iff in Hc as [Hc _].
  - rewrite filter_all; [done|]. apply primary_keys_flagged.
Qed.

Lemma maybe_primary_keys_spec (t : Table) :
  maybe_primary_keys t
  = if Nat.eqb (length (unique_others t)) 1 then [] else part_primary_keys t.
Proof.
  unfold maybe_primary_keys. rewrite has_primary_key_natural.
  destruct (Nat.eqb (length (unique_others t)) 1); simpl; [done|].
  by destruct (part_primary_keys t).
Qed.

Lemma natural_key_is_fallback (t : Table) :
  find_natural_key t = part_primary_keys t
  <-> Nat.eqb (length (unique_others t)) 1 = false.
Proof.
  rewrite find_natural_key_unfold.
  destruct (Nat.eqb (length (unique_others t)) 1) eqn:Hlen; [|done].
  split; [|done]. intros Heq.
  destruct (unique_others t) as [|N [|? ?]] eqn:Hu; try done.
  assert (HN : N ∈ unique_others t) by (rewrite Hu; constructor).
  unfold unique_others in HN. apply in_filter_iff in HN as [HN _].
  apply other_not_primary in HN.
  assert (HN' : N ∈ part_primary_keys t) by (rewrite <- Heq; constructor).
  apply primary_keys_flagged in HN'. congruence.
Qed.

(** C1, as stated, fails: the natural key of [LookupNoNKTable] is its own
    primary key, and the plan's simple columns still start with that key;
    the natural key of [NormalisedTable] is not its primary key, and the
    plan's simple columns leave the primary key out. *)
Lemma simple_cols_as_stated_fails :
  (find_natural_key TestSchema.LookupNoNKTable
     = part_primary_keys TestSchema.LookupNoNKTable
   /\ exists p, _normalisation_info TestSchema.metadata TestSchema.LookupNoNKTable = Ok p
        /\ simple_cols p = part_primary_keys TestSchema.LookupNoNKTable
                           ++ part_other TestSchema.LookupNoNKTable
        /\ simple_cols p <> spec_maybe_primary_keys TestSchema.LookupNoNKTable
                            ++ part_other TestSchema.LookupNoNKTable)
  /\ (find_natural_key TestSchema.NormalisedTable
        <> part_primary_keys TestSchema.NormalisedTable
      /\ exists p, _normalisation_info TestSchema.metadata TestSchema.NormalisedTable = Ok p
           /\ map name (part_primary_keys TestSchema.NormalisedTable) = ["id"]
           /\ map name (simple_cols p) = ["username"; "name"; "age"; "valid"; "nonk_id"]).
Proof.
  split.
  - split; [reflexivity|]. eexists. split; [vm_compute; reflexivity|].
    split; [reflexivity|]. vm_compute. discriminate.
  - split; [vm_compute; discriminate|]. eexists.
    split; [vm_compute; reflexivity|]. split; reflexivity.
Qed.

(** C1, amended: the primary-key columns are kept exactly when the table's
    natural key is its own primary key, and are left out when a single
    unique "other" column is the natural key; the simple columns are these,
    then the other columns, then the foreign keys passed through raw. *)
Theorem simple_cols_spec (md : MetaData) (t : Table) :
  maybe_primary_keys t
    = (if decide (find_natural_key t = part_primary_keys t)
       then part_primary_keys t else [])
  /\ forall p, _normalisation_info md t = Ok p ->
       simple_cols p
         = maybe_primary_keys t ++ part_other t
           ++ List.filter (passes_raw md) (part_foreign_keys t)
       /\ (find_natural_key t <> part_primary_keys t ->
           forall c, c ∈ part_primary_keys t -> c ∉ simple_cols p).
Proof.
  assert (Hmaybe : maybe_primary_keys t
    = if decide (find_natural_key t = part_primary_keys t)
      then part_primary_keys t else []).
  { rewrite maybe_primary_keys_spec.
    destruct (decide (find_natural_key t = part_primary_keys t)) as [Heq|Hne].
    - apply natural_key_is_fallback in Heq. by rewrite Heq.
    - destruct (Nat.eqb (length (unique_others t)) 1) eqn:Hlen; [done|].
      by apply natural_key_is_fallback in Hlen. }
  split; [done|].
  intros p Hp. unfold _normalisation_info in Hp.
  apply fk_loop_ok in Hp as (Hs & _ & _). simpl in Hs.
  split; [by rewrite Hs, <- app_assoc|].
  intros Hne c Hc. rewrite Hs, Hmaybe.
  destruct (decide (find_natural_key t = part_primary_keys t)); [done|]. simpl.
  rewrite part_primary_keys_filter, in_filter_iff in Hc. destruct Hc as [_ Hpk].
  rewrite elem_of_app, part_other_filter, part_foreign_keys_filter, !in_filter_iff.
  destruct (class_exclusive c) as [(Hf & Hp' & Ho)|[(Hf & Hp' & Ho)|(Hf & Hp' & Ho)]];
    intuition congruence.
Qed.

Lemma simple_cols_spec_witness :
  exists p, _normalisation_info TestSchema.metadata TestSchema.NormalisedTable = Ok p
    /\ simple_cols p
       = maybe_primary_keys TestSchema.NormalisedTable
         ++ part_other TestSchema.NormalisedTable
         ++ List.filter (passes_raw TestSchema.metadata)
              (part_foreign_keys TestSchema.NormalisedTable).
Proof.
  eexists. split; [vm_compute; reflexivity|].
  apply (proj2 (simple_cols_spec TestSchema.metadata TestSchema.NormalisedTable)).
  vm_compute. reflexivity.
Defined.

(** *** Foreign keys in the plan *)

Lemma two_way_split (f : Column -> bool) (l : list Column) :
  l ≡ₚ List.filter f l ++ List.filter (fun c => negb (f c)) l.
Proof.
  induction l as [|c l IH]; simpl; [done|].
  destruct (f c); simpl.
  - by constructor.
  - rewrite <- Permutation_middle. by constructor.
Qed.

(** Whenever the planner returns a plan, each foreign key of the table is
    either among the simple columns (when the loop's test holds of its
    target) or among the denormalised ones, labelled with its own name. *)
Lemma normalisation_info_fk_outcomes (md : MetaData) (t : Table) (p : Plan) :
  _normalisation_info md t = Ok p ->
  let raw := List.filter (passes_raw md) (part_foreign_keys t) in
  simple_cols p = (maybe_primary_keys t ++ part_other t) ++ raw
  /\ from_columns p
     = List.filter (fun fk => negb (passes_raw md fk)) (part_foreign_keys t)
  /\ map label_name (denormalised_cols p) = map name (from_columns p)
  /\ part_foreign_keys t ≡ₚ raw ++ from_columns p
  /\ (forall fk, ~ (fk ∈ raw /\ fk ∈ from_columns p)).
Proof.
  intros Hp. unfold _normalisation_info in Hp.
  apply fk_loop_ok in Hp as (Hs & Hf & Hd). simpl in *.
  split; [done|]. split; [done|]. split; [by rewrite Hd, Hf|].
  split; [rewrite Hf; apply two_way_split|].
  intros fk. rewrite Hf, !in_filter_iff.
  destruct (passes_raw md fk); simpl; intuition congruence.
Qed.

(** The loop returns a plan when every foreign key can be placed. *)
Lemma fk_loop_total (md : MetaData) (fks : list Column) (p : Plan) :
  (forall fk, fk ∈ fks -> fk_plannable md fk) -> is_Ok (fk_loop md fks p).
Proof.
  revert p. induction fks as [|fk fks IH]; intros p Hall; simpl.
  - by exists p.
  - destruct (Hall fk) as (tc & tt & Ht & Hne); [constructor|].
    rewrite fk_step_unfold, Ht.
    destruct (has_primary_key (find_natural_key tt)); simpl.
    + apply IH. intros fk' Hfk'. apply Hall. by constructor.
    + destruct (find_natural_key tt) as [|nk rest]; [done|]. simpl.
      apply IH. intros fk' Hfk'. apply Hall. by constructor.
Qed.

(** A resolved foreign key is passed through raw exactly when the natural
    key of its target is the target's primary-key sequence and that
    sequence is not empty. *)
Lemma passes_raw_spec (md : MetaData) (fk tc : Column) (tt : Table) :
  fk_target md fk = Ok (tc, tt) ->
  passes_raw md fk = true
  <-> find_natural_key tt = part_primary_keys tt /\ part_primary_keys tt <> [].
Proof.
  intros Ht. unfold passes_raw. rewrite Ht, has_primary_key_natural.
  rewrite natural_key_is_fallback, andb_true_iff, negb_true_iff.
  destruct (part_primary_keys tt); simpl; intuition congruence.
Qed.

(** The plans of the test suite: [NormalisedTable] denormalises
    [accounttype_id] and passes [nonk_id] through; [LookupNoNKTable] keeps
    its primary key. *)
Example denormalise_prepare_test_names :
  (exists q, denormalise_prepare TestSchema.metadata TestSchema.NormalisedTable
               _tidy_colname
             = Ok (q, ["username"; "name"; "age"; "valid"; "nonk_id"; "accounttype"]))
  /\ (exists q, denormalise_prepare TestSchema.metadata TestSchema.LookupNoNKTable
                  _tidy_colname
                = Ok (q, ["id"; "description"])).
Proof. split; eexists; vm_compute; reflexivity. Qed.

(** C4 at [Project]: its foreign key [manager_id] points to [Manager],
    whose natural key is its (empty) primary-key sequence; the planner
    neither passes the key through nor denormalises it, it raises
    [IndexError] at [remote_natural_keys[0]]. *)
Theorem normalisation_info_empty_remote_key :
  map name (part_foreign_keys InheritanceSchema.Project) = ["manager_id"]
  /\ find_natural_key InheritanceSchema.Manager
     = part_primary_keys InheritanceSchema.Manager
  /\ find_natural_key InheritanceSchema.Manager = []
  /\ _normalisation_info InheritanceSchema.metadata InheritanceSchema.Project
     = Raise IndexError.
Proof. repeat split; vm_compute; reflexivity. Qed.

(** ** The null-stripper *)

Section RowCleaner.

Implicit Types (cols : list string) (c d : Row).

(** The loop only removes entries. *)
Lemma row_cleaner_shrinks cols c c' k v :
  _row_cleaner cols c = Ok c' -> c' !! k = Some v -> c !! k = Some v.
Proof.
  revert c. induction cols as [|x rest IH]; intros c; simpl.
  - by intros [= <-].
  - destruct (c !! x) as [w|] eqn:Hx; [|done].
    case_bool_decide; intros Hrun Hk; [|by eapply IH].
    specialize (IH _ Hrun Hk).
    apply lookup_delete_Some in IH. by destruct IH.
Qed.

(** The only exception the loop raises is [KeyError]. *)
Lemma row_cleaner_raises cols c e :
  _row_cleaner cols c = Raise e -> exists k, e = KeyError (VStr k).
Proof.
  revert c. induction cols as [|x rest IH]; intros c; simpl; [done|].
  destruct (c !! x) as [w|] eqn:Hx.
  - case_bool_decide; apply IH.
  - intros [= <-]. by exists x.
Qed.

(** A column of the loop that the row lacks makes the loop fail. *)
Lemma row_cleaner_missing cols c col :
  col ∈ cols -> c !! col = None -> is_KeyError (_row_cleaner cols c).
Proof.
  revert c. induction cols as [|x rest IH]; intros c Hin Hc; simpl.
  - by apply elem_of_nil in Hin.
  - destruct (c !! x) as [w|] eqn:Hx; [|by eexists].
    assert (Hne : col <> x) by congruence.
    apply elem_of_cons in Hin as [?|Hin]; [done|].
    case_bool_decide; apply IH; try done.
    by rewrite lookup_delete_ne.
Qed.

(** A successful run either changed nothing or removed a loop column. *)
Lemma row_cleaner_same_or_removed cols c c' :
  _row_cleaner cols c = Ok c' ->
  c' = c \/ exists col, col ∈ cols /\ c' !! col = None.
Proof.
  revert c. induction cols as [|x rest IH]; intros c; simpl.
  - intros [= <-]. by left.
  - destruct (c !! x) as [w|] eqn:Hx; [|done].
    case_bool_decide; intros Hrun.
    + right. exists x. split; [constructor|].
      destruct (c' !! x) as [u|] eqn:Hu; [|done].
      apply (row_cleaner_shrinks _ _ _ _ _ Hrun) in Hu.
      by rewrite lookup_delete_eq in Hu.
    + apply IH in Hrun as [->|(col & Hin & Hcol)]; [by left|].
      right. exists col. split; [by constructor|done].
Qed.

(** With distinct loop columns, all present in the row, the loop succeeds
    and removes exactly the entries that hold the empty string. *)
Lemma row_cleaner_total cols c :
  NoDup cols -> (forall col, col ∈ cols -> is_Some (c !! col)) ->
  exists c', _row_cleaner cols c = Ok c'
    /\ (forall k, k ∈ cols -> c !! k = Some (VStr "") -> c' !! k = None)
    /\ (forall k, ~ (k ∈ cols /\ c !! k = Some (VStr "")) -> c' !! k = c !! k).
Proof.
  revert c. induction cols as [|x rest IH]; intros c Hnd Hall; simpl.
  - exists c. split; [done|]. split; [|done]. intros k Hk. by apply elem_of_nil in Hk.
  - apply NoDup_cons in Hnd as [Hx Hnd].
    destruct (Hall x) as [w Hw]; [constructor|]. rewrite Hw.
    case_bool_decide as Hemp.
    + subst w.
      destruct (IH (delete x c) Hnd) as (c' & Hrun & Hdel & Hkeep).
      { intros col Hcol. rewrite lookup_delete_ne by (intros ->; done).
        apply Hall. by constructor. }
      exists c'. split; [done|]. split.
      * intros k Hk Hck. destruct (decide (k = x)) as [->|Hne].
        -- rewrite Hkeep; [apply lookup_delete_eq|]. intros [? _]. done.
        -- apply elem_of_cons in Hk as [?|Hk]; [done|].
           apply Hdel; [done|]. by rewrite lookup_delete_ne.
      * intros k Hk. destruct (decide (k = x)) as [->|Hne].
        -- exfalso. apply Hk. split; [constructor|done].
        -- rewrite Hkeep; [by rewrite lookup_delete_ne|].
           intros [Hin Hv]. apply Hk. split; [by constructor|].
           by rewrite lookup_delete_ne in Hv.
    + destruct (IH c Hnd) as (c' & Hrun & Hdel & Hkeep).
      { intros col Hcol. apply Hall. by constructor. }
      exists c'. split; [done|]. split.
      * intros k Hk Hck. apply elem_of_cons in Hk as [->|Hk]; [congruence|].
        by apply Hdel.
      * intros k Hk. apply Hkeep. intros [Hin Hv]. apply Hk.
        split; [by constructor|done].
Qed.

End RowCleaner.

Lemma nullables_elem (t : Table) (k : string) :
  k ∈ nullables t <-> exists c, c ∈ columns t /\ nullable c = true /\ name c = k.
Proof.
  unfold nullables. rewrite list_elem_of_fmap. split.
  - intros (c & -> & Hc). apply in_filter_iff in Hc as [Hc Hn]. by exists c.
  - intros (c & Hc & Hn & <-). exists c. split; [done|]. by apply in_filter_iff.
Qed.

Lemma nullables_NoDup (t : Table) : distinct_names t -> NoDup (nullables t).
Proof.
  unfold distinct_names, nullables.
  induction (columns t) as [|c l IH]; simpl; [constructor|].
  intros Hnd. apply NoDup_cons in Hnd as [Hc Hnd].
  destruct (nullable c); simpl; [|by apply IH].
  apply NoDup_cons. split; [|by apply IH].
  intros Hin. apply Hc. apply list_elem_of_fmap in Hin as (c' & Hn & Hc').
  apply in_filter_iff in Hc' as [Hc' _]. apply list_elem_of_fmap. by exists c'.
Qed.

(** With distinct column names, a column's name is among the nullable
    names only if the column is nullable. *)
Lemma nullables_of_column (t : Table) (c : Column) :
  distinct_names t -> c ∈ columns t -> nullable c = false ->
  name c ∉ nullables t.
Proof.
  intros Hnd Hc Hn Hin. apply nullables_elem in Hin as (c' & Hc' & Hn' & Heq).
  assert (c' = c); [|congruence].
  unfold distinct_names in Hnd. clear Hn Hn'.
  induction (columns t) as [|x l IH]; [by apply elem_of_nil in Hc|].
  simpl in Hnd. apply NoDup_cons in Hnd as [Hx Hnd].
  apply elem_of_cons in Hc as [->|Hc]; apply elem_of_cons in Hc' as [->|Hc'];
    try done.
  - exfalso. apply Hx. apply list_elem_of_fmap. by exists c'.
  - exfalso. apply Hx. apply list_elem_of_fmap. by exists c.
  - by apply IH.
Qed.

(** C10: a row that lacks the key of some nullable column of the table
    makes the null-stripper fail with a key-lookup error; no row is
    returned. *)
Theorem empty_deleter_missing_key (t : Table) (d : Row) (c : Column) :
  c ∈ columns t -> nullable c = true -> d !! name c = None ->
  (exists k, empty_deleter t d = Raise (KeyError (VStr k)))
  /\ ~ is_Ok (empty_deleter t d).
Proof.
  intros Hc Hn Hd.
  destruct (row_cleaner_missing (nullables t) d (name c)) as [k Hk]; [|done|].
  { apply nullables_elem. by exists c. }
  fold (empty_deleter t) in Hk.
  destruct (row_cleaner_raises _ _ _ Hk) as [k' [= ->]].
  split; [by exists k'|]. intros [r Hr]. congruence.
Qed.

Lemma empty_deleter_missing_key_witness :
  (exists k, empty_deleter TestSchema.NormalisedTable
               (TestSchema.row [("username", VStr "noname"); ("name", VStr "")])
             = Raise (KeyError (VStr k)))
  /\ ~ is_Ok (empty_deleter TestSchema.NormalisedTable
                (TestSchema.row [("username", VStr "noname"); ("name", VStr "")])).
Proof.
  apply (empty_deleter_missing_key TestSchema.NormalisedTable _
           (TestSchema.mk_column "normalised_table" "nonk_id" false false true
              [ {| fk_table := "lookup_nonk_table"; fk_colname := "id" |} ] int_t)).
  - repeat constructor.
  - reflexivity.
  - vm_compute. reflexivity.
Defined.

(** C7, as stated, fails: on a row without the key of the nullable column
    [name], the null-stripper of [NormalisedTable] returns no row. *)
Lemma empty_deleter_every_row_fails :
  empty_deleter TestSchema.NormalisedTable
    (TestSchema.row [("username", VStr ""); ("nonk_id", VInt 1)])
  = Raise (KeyError (VStr "name")).
Proof. vm_compute. reflexivity. Qed.

(** C7, amended: for a row that has a key for every nullable column of the
    table, the null-stripper returns a row from which every key of a
    nullable column holding the empty string is removed; every other entry
    is as in the input, and so is the entry of every column that is not
    nullable, the empty string included. *)
Theorem empty_deleter_spec (t : Table) (d : Row) :
  distinct_names t ->
  (forall c, c ∈ columns t -> nullable c = true -> is_Some (d !! name c)) ->
  exists r, empty_deleter t d = Ok r
    /\ (forall c, c ∈ columns t -> nullable c = true ->
          d !! name c = Some (VStr "") -> r !! name c = None)
    /\ (forall c, c ∈ columns t -> nullable c = false -> r !! name c = d !! name c)
    /\ (forall k, d !! k <> Some (VStr "") -> r !! k = d !! k)
    /\ (forall k, k ∉ nullables t -> r !! k = d !! k).
Proof.
  intros Hnd Hall.
  destruct (row_cleaner_total (nullables t) d) as (r & Hrun & Hdel & Hkeep).
  { by apply nullables_NoDup. }
  { intros col Hcol. apply nullables_elem in Hcol as (c & Hc & Hn & <-). by apply Hall. }
  exists r. split; [done|]. split; [|split; [|split]].
  - intros c Hc Hn Hv. apply Hdel; [|done]. apply nullables_elem. by exists c.
  - intros c Hc Hn. apply Hkeep. intros [Hin _].
    by apply (nullables_of_column t c).
  - intros k Hk. apply Hkeep. by intros [_ ?].
  - intros k Hk. apply Hkeep. by intros [? _].
Qed.

Lemma NormalisedTable_distinct_names : distinct_names TestSchema.NormalisedTable.
Proof. unfold distinct_names. compute_done. Qed.

Lemma empty_deleter_spec_witness :
  exists r, empty_deleter TestSchema.NormalisedTable
              (TestSchema.row [("username", VStr ""); ("name", VStr "");
                               ("nonk_id", VInt 1)]) = Ok r
    /\ r !! "name" = None
    /\ r !! "username" = Some (VStr "").
Proof.
  destruct (empty_deleter_spec TestSchema.NormalisedTable
              (TestSchema.row [("username", VStr ""); ("name", VStr "");
                               ("nonk_id", VInt 1)]))
    as (r & Hr & Hdel & Hkeep & _).
  - unfold distinct_names. compute_done.
  - intros c Hc Hn.
    repeat (apply elem_of_cons in Hc as [->|Hc]; [try discriminate Hn|]).
    + vm_compute. eauto.
    + vm_compute. eauto.
    + by apply elem_of_nil in Hc.
  - exists r. split; [exact Hr|]. split.
    + apply (Hdel (TestSchema.mk_column "normalised_table" "name" false false true
                     [] str_t)).
      * repeat constructor.
      * reflexivity.
      * vm_compute. reflexivity.
    + etransitivity.
      * apply (Hkeep (TestSchema.mk_column "normalised_table" "username" false true
                        false [] str_t)); [repeat constructor|reflexivity].
      * vm_compute. reflexivity.
Defined.

(** C2, as stated, fails: on the input row of the test suite the first
    application removes [name], and the second application then raises
    [KeyError] instead of returning the same row. *)
Lemma empty_deleter_twice_fails :
  let f := empty_deleter TestSchema.NormalisedTable in
  let d := TestSchema.row [("username", VStr "noname"); ("name", VStr "");
                           ("accounttype", VStr "user"); ("age", VStr "33");
                           ("valid", VStr "False"); ("nonk_id", VInt 1)] in
  f d = Ok (TestSchema.row [("username", VStr "noname");
                            ("accounttype", VStr "user"); ("age", VStr "33");
                            ("valid", VStr "False"); ("nonk_id", VInt 1)])
  /\ bind (f d) f = Raise (KeyError (VStr "name"))
  /\ bind (f d) f <> f d.
Proof.
  simpl. split; [vm_compute; reflexivity|].
  split; [vm_compute; reflexivity|]. vm_compute. discriminate.
Qed.

(** C2, amended: after a successful application, a second application
    returns the same row exactly when the first one removed nothing; when
    the first one removed a key, the second one raises a key-lookup error. *)
Theorem empty_deleter_second_application (t : Table) (d r : Row) :
  empty_deleter t d = Ok r ->
  (r = d /\ empty_deleter t r = Ok r)
  \/ (r <> d /\ exists k, empty_deleter t r = Raise (KeyError (VStr k))).
Proof.
  intros Hrun. destruct (decide (r = d)) as [->|Hne]; [by left|].
  right. split; [done|].
  apply row_cleaner_same_or_removed in Hrun as [?|(col & Hin & Hcol)]; [done|].
  destruct (row_cleaner_missing (nullables t) r col Hin Hcol) as [k Hk].
  fold (empty_deleter t) in Hk.
  destruct (row_cleaner_raises _ _ _ Hk) as [k' [= ->]]. by exists k'.
Qed.

Lemma empty_deleter_second_application_witness :
  let d := TestSchema.row [("name", VStr ""); ("nonk_id", VInt 1)] in
  let r := TestSchema.row [("nonk_id", VInt 1)] in
  (r = d /\ empty_deleter TestSchema.NormalisedTable r = Ok r)
  \/ (r <> d /\ exists k, empty_deleter TestSchema.NormalisedTable r
                          = Raise (KeyError (VStr k))).
Proof.
  simpl. apply empty_deleter_second_application. vm_compute. reflexivity.
Defined.

(** ** The row maker *)

Section RowMaker.

Implicit Types (lookups : list Lookup) (c d : Row).

Lemma row_maker_cons csv sql (L : gmap string Value) lookups c :
  _row_maker ((csv, sql, L) :: lookups) c
  = match c !! csv with
    | None => Raise (KeyError (VStr csv))
    | Some v =>
        match lookup_getitem L v with
        | Raise e => Raise e
        | Ok surr => _row_maker lookups (<[sql := surr]> (delete csv c))
        end
    end.
Proof.
  simpl. unfold dict_pop. destruct (c !! csv) as [v|]; simpl; [|done].
  destruct (lookup_getitem L v); done.
Qed.

Lemma lookup_getitem_raises (L : gmap string Value) v e :
  lookup_getitem L v = Raise e -> e = KeyError v.
Proof.
  unfold lookup_getitem. destruct v; try (by intros [= <-]).
  destruct (L !! s); [done|]. by intros [= <-].
Qed.

(** The only exception the row maker raises is [KeyError]. *)
Lemma row_maker_raises lookups c e :
  _row_maker lookups c = Raise e -> exists k, e = KeyError k.
Proof.
  revert c. induction lookups as [|[[csv sql] L] rest IH]; intros c; [done|].
  rewrite row_maker_cons. destruct (c !! csv) as [v|]; [|intros [= <-]; eauto].
  destruct (lookup_getitem L v) as [surr|e'] eqn:Hget; [apply IH|].
  intros [= <-]. apply lookup_getitem_raises in Hget. eauto.
Qed.

(** A miss at some entry, or the absence of its key, fails the whole
    call, as long as no earlier entry writes under that key. *)
Lemma row_maker_miss pre csv sql (L : gmap string Value) post c :
  csv ∉ map sql_of pre ->
  (c !! csv = None
   \/ exists v, c !! csv = Some v /\ lookup_getitem L v = Raise (KeyError v)) ->
  exists k, _row_maker (pre ++ (csv, sql, L) :: post) c = Raise (KeyError k).
Proof.
  revert c. induction pre as [|[[csv0 sql0] L0] pre IH]; intros c Hsql Hc.
  - simpl app. rewrite row_maker_cons.
    destruct Hc as [->|(v & -> & ->)]; eauto.
  - simpl app. rewrite row_maker_cons.
    destruct (c !! csv0) as [v0|] eqn:Hv0; [|eauto].
    destruct (lookup_getitem L0 v0) as [surr|e] eqn:Hget.
    + apply IH.
      * intros Hin. apply Hsql. simpl. by constructor.
      * assert (Hne : sql0 <> csv).
        { intros ->. apply Hsql. simpl. constructor. }
        rewrite lookup_insert_ne by done.
        destruct (decide (csv0 = csv)) as [->|Hne'].
        -- left. apply lookup_delete_eq.
        -- by rewrite lookup_delete_ne.
    + apply lookup_getitem_raises in Hget as ->. eauto.
Qed.

(** With compatible names and every text resolved, the row maker returns
    a row: each original name holds the resolved surrogate, each tidied
    name that is not also an original name is gone, and every other entry
    is the one of the input row. *)
Lemma row_maker_total lookups d :
  names_compatible lookups -> all_resolved lookups d ->
  exists r, _row_maker lookups d = Ok r
    /\ (forall l, l ∈ lookups ->
          exists s, d !! csv_of l = Some (VStr s) /\ r !! sql_of l = map_of l !! s)
    /\ (forall k, k ∈ map csv_of lookups -> k ∉ map sql_of lookups -> r !! k = None)
    /\ (forall k, k ∉ map csv_of lookups -> k ∉ map sql_of lookups ->
          r !! k = d !! k).
Proof.
  revert d. induction lookups as [|[[csv sql] L] rest IH]; intros d Hnames Hres.
  - exists d. split; [done|]. split; [|split]; try done;
      intros ? H; by apply elem_of_nil in H.
  - destruct Hnames as (Hcsv & Hsqlcsv & Hsql & Hnames).
    unfold csv_of, sql_of in Hcsv, Hsqlcsv, Hsql; simpl in Hcsv, Hsqlcsv, Hsql.
    fold csv_of in Hcsv, Hsqlcsv. fold sql_of in Hsql.
    destruct (Hres (csv, sql, L)) as (s & v & Hd & HL); [constructor|].
    unfold csv_of, map_of in Hd, HL; simpl in Hd, HL.
    rewrite row_maker_cons, Hd. simpl. rewrite HL.
    destruct (IH (<[sql := v]> (delete csv d)) Hnames) as (r & Hrun & Hsur & Hgone & Hkeep).
    { intros l Hl. destruct (Hres l) as (s' & v' & Hd' & HL'); [by constructor|].
      exists s', v'. split; [|done].
      assert (csv_of l ∈ map csv_of rest) by (apply list_elem_of_fmap; eauto).
      rewrite lookup_insert_ne by (intros ->; done).
      rewrite lookup_delete_ne by (intros ->; done). done. }
    exists r. split; [done|]. split; [|split].
    + intros l Hl. apply elem_of_cons in Hl as [->|Hl].
      * exists s. split; [done|]. unfold sql_of, map_of; simpl.
        rewrite Hkeep by done. rewrite lookup_insert_eq. by rewrite HL.
      * destruct (Hsur l Hl) as (s' & Hd' & Hr'). exists s'. split; [|done].
        assert (csv_of l ∈ map csv_of rest) by (apply list_elem_of_fmap; eauto).
        rewrite lookup_insert_ne in Hd' by (intros ->; done).
        rewrite lookup_delete_ne in Hd' by (intros ->; done). done.
    + intros k Hk Hnk. simpl in Hk, Hnk.
      apply not_elem_of_cons in Hnk as [Hne Hnk]. unfold sql_of in Hne; simpl in Hne.
      destruct (decide (k ∈ map csv_of rest)) as [Hin|Hnin]; [by apply Hgone|].
      apply elem_of_cons in Hk as [->|Hk]; [|done].
      unfold csv_of; simpl. rewrite Hkeep by done.
      rewrite lookup_insert_ne by done. apply lookup_delete_eq.
    + intros k Hk Hnk. simpl in Hk, Hnk.
      apply not_elem_of_cons in Hk as [Hne1 Hk].
      apply not_elem_of_cons in Hnk as [Hne2 Hnk].
      unfold csv_of in Hne1; unfold sql_of in Hne2; simpl in Hne1, Hne2.
      rewrite Hkeep by done. rewrite lookup_insert_ne by done.
      by rewrite lookup_delete_ne.
Qed.

End RowMaker.

(** The plan keeps as many denormalised columns as target columns. *)
Lemma fk_loop_lengths (md : MetaData) (fks : list Column) (p p' : Plan) :
  fk_loop md fks p = Ok p' ->
  length (denormalised_cols p) = length (to_columns p) ->
  length (denormalised_cols p') = length (to_columns p').
Proof.
  revert p. induction fks as [|fk fks IH]; intros p; simpl.
  - by intros [= <-].
  - destruct (fk_step md p fk) as [p1|e] eqn:Hstep; simpl; [|done].
    intros Hloop Hlen. apply (IH p1 Hloop).
    apply fk_step_ok in Hstep
      as [[_ ->]|(_ & tc & tt & nk & rest & _ & _ & ->)]; simpl; [done|].
    rewrite !length_app. simpl. lia.
Qed.

Lemma lookups_names_zip (sess : Session) (tidier : string -> string)
    (dl : list Label) (tl : list Column) :
  length dl = length tl ->
  map (fun l => (csv_of l, sql_of l))
      (map (fun '(natural_key, surrogate_key) =>
              (tidier (label_name natural_key), label_name natural_key,
               build_lookup (lookup_query_all sess natural_key surrogate_key)))
           (zip dl tl))
  = map (fun n => (tidier n, n)) (map label_name dl).
Proof.
  revert tl. induction dl as [|l dl IH]; intros [|c tl] Hlen; try done.
  simpl. f_equal. apply IH. simpl in Hlen. lia.
Qed.

(** The entries of the row maker are the denormalised foreign keys of the
    plan, in order: tidied name and original name. *)
Lemma renormalise_lookups_names (sess : Session) (md : MetaData) (t : Table)
    (tidier : string -> string) (p : Plan) :
  _normalisation_info md t = Ok p ->
  map (fun l => (csv_of l, sql_of l)) (renormalise_lookups sess tidier p)
  = map (fun fk => (tidier (name fk), name fk)) (from_columns p).
Proof.
  intros Hp. unfold renormalise_lookups. rewrite lookups_names_zip.
  - apply normalisation_info_fk_outcomes in Hp as (_ & _ & -> & _).
    by rewrite map_map.
  - unfold _normalisation_info in Hp. by apply fk_loop_lengths in Hp.
Qed.

Lemma renormalise_prepare_unfold (sess : Session) (md : MetaData) (t : Table)
    (tidier : string -> string) (p : Plan) :
  _normalisation_info md t = Ok p ->
  renormalise_prepare sess md t tidier
  = Ok (_row_maker (renormalise_lookups sess tidier p)).
Proof. intros Hp. unfold renormalise_prepare. by rewrite Hp. Qed.

(** The first row of [test_renormalise_prepare]. *)
Example renormalise_prepare_test_row :
  exists f, renormalise_prepare TestSchema.db_session TestSchema.metadata
              TestSchema.NormalisedTable _tidy_colname = Ok f
    /\ f (TestSchema.row [("username", VStr "bob"); ("name", VStr "Big Bob");
                          ("accounttype", VStr "admin"); ("age", VStr "31");
                          ("valid", VStr "True")])
       = Ok (TestSchema.row [("username", VStr "bob"); ("name", VStr "Big Bob");
                             ("accounttype_id", VInt 1); ("age", VStr "31");
                             ("valid", VStr "True")]).
Proof. eexists. split; [reflexivity|]. vm_compute. reflexivity. Qed.

(** C5, as stated, fails: the row of [Items] holds the text [y] under the
    tidied name [a_id], and the lookup map of that column has no entry for
    [y]; yet the row maker returns a row, because the entry before it has
    already stored its own surrogate under [a_id]. *)
Lemma row_maker_miss_overwritten :
  exists p f L1 L2,
    _normalisation_info ClashSchema.metadata ClashSchema.Items = Ok p
    /\ renormalise_prepare ClashSchema.session_z ClashSchema.metadata
         ClashSchema.Items _tidy_colname = Ok f
    /\ renormalise_lookups ClashSchema.session_z _tidy_colname p
       = [("a", "a_id", L1); ("a_id", "a_id_id", L2)]
    /\ ClashSchema.input !! "a_id" = Some (VStr "y")
    /\ L2 !! "y" = None
    /\ f ClashSchema.input
       = Ok (TestSchema.row [("title", VStr "t"); ("a_id_id", VInt 7)]).
Proof.
  do 4 eexists. split; [vm_compute; reflexivity|].
  split; [reflexivity|]. split; [reflexivity|].
  split; [vm_compute; reflexivity|]. split; vm_compute; reflexivity.
Qed.

(** C5, amended: when the input row holds, under the tidied name of a
    denormalised column, a text that the column's lookup map does not have,
    and no earlier denormalised column has that tidied name as its original
    name, the row maker returned by [renormalise_prepare] raises a
    key-lookup error and returns no row. *)
Theorem row_maker_lookup_miss (sess : Session) (md : MetaData) (t : Table)
    (tidier : string -> string) (p : Plan) (pre post : list Lookup)
    (csv sql : string) (L : gmap string Value) (d : Row) (s : string) :
  _normalisation_info md t = Ok p ->
  renormalise_lookups sess tidier p = pre ++ (csv, sql, L) :: post ->
  csv ∉ map sql_of pre ->
  d !! csv = Some (VStr s) ->
  L !! s = None ->
  exists f k, renormalise_prepare sess md t tidier = Ok f
    /\ f d = Raise (KeyError k)
    /\ ~ is_Ok (f d).
Proof.
  intros Hp Hlookups Hpre Hd HL.
  destruct (row_maker_miss pre csv sql L post d Hpre) as [k Hk].
  { right. exists (VStr s). split; [done|]. simpl. by rewrite HL. }
  exists (_row_maker (renormalise_lookups sess tidier p)), k.
  split; [by apply renormalise_prepare_unfold|].
  rewrite Hlookups. split; [done|]. intros [r Hr]. congruence.
Qed.

Lemma row_maker_lookup_miss_witness :
  exists f k,
    renormalise_prepare TestSchema.db_session TestSchema.metadata
      TestSchema.NormalisedTable _tidy_colname = Ok f
    /\ f (TestSchema.row [("username", VStr "bob"); ("accounttype", VStr "root")])
       = Raise (KeyError k)
    /\ ~ is_Ok (f (TestSchema.row [("username", VStr "bob");
                                   ("accounttype", VStr "root")])).
Proof.
  eapply (row_maker_lookup_miss TestSchema.db_session TestSchema.metadata
            TestSchema.NormalisedTable _tidy_colname _ [] [] _ _ _ _ "root").
  - vm_compute. reflexivity.
  - reflexivity.
  - simpl. apply not_elem_of_nil.
  - vm_compute. reflexivity.
  - vm_compute. reflexivity.
Defined.

(** With distinct column names, the columns a plan keeps have distinct
    names. *)
Lemma plan_names_NoDup (md : MetaData) (t : Table) (p : Plan) :
  distinct_names t ->
  _normalisation_info md t = Ok p ->
  NoDup (map name (simple_cols p ++ from_columns p)).
Proof.
  intros Hnd Hp.
  apply normalisation_info_fk_outcomes in Hp as (Hs & _ & _ & Hperm & _).
  assert (Hkept : simple_cols p ++ from_columns p
                  ≡ₚ maybe_primary_keys t ++ part_other t ++ part_foreign_keys t).
  { rewrite Hs, <- !app_assoc. do 2 apply Permutation_app_head.
    symmetry. exact Hperm. }
  assert (Hall : NoDup (map name (part_primary_keys t ++ part_other t
                                  ++ part_foreign_keys t))).
  { unfold distinct_names in Hnd.
    rewrite part_primary_keys_filter, part_other_filter, part_foreign_keys_filter.
    assert (Hcols : map name (List.filter is_pk (columns t)
                              ++ List.filter is_other (columns t)
                              ++ List.filter is_fk (columns t))
                    ≡ₚ map name (columns t)).
    { apply Permutation_map. rewrite (three_way_split (columns t)) at 4.
      apply Permutation_app_head. apply Permutation_app_comm. }
    by rewrite Hcols. }
  assert (Hnames : map name (simple_cols p ++ from_columns p)
                   ≡ₚ map name (maybe_primary_keys t ++ part_other t
                                ++ part_foreign_keys t)).
  { by apply Permutation_map. }
  rewrite Hnames, maybe_primary_keys_spec.
  destruct (Nat.eqb (length (unique_others t)) 1); [|done].
  simpl. rewrite map_app in Hall. by apply NoDup_app in Hall as (_ & _ & ?).
Qed.

(** With distinct column names, no simple column of a plan carries the
    original name of a denormalised foreign key. *)
Lemma simple_not_sql_name (sess : Session) (md : MetaData) (t : Table)
    (tidier : string -> string) (p : Plan) (c : Column) :
  distinct_names t ->
  _normalisation_info md t = Ok p ->
  c ∈ simple_cols p ->
  name c ∉ map sql_of (renormalise_lookups sess tidier p).
Proof.
  intros Hnd Hp Hc.
  pose proof (plan_names_NoDup md t p Hnd Hp) as Hno.
  pose proof (renormalise_lookups_names sess md t tidier p Hp) as Hnames.
  apply (f_equal (map snd)) in Hnames. rewrite !map_map in Hnames. simpl in Hnames.
  change (map (fun x => sql_of x) (renormalise_lookups sess tidier p))
    with (map sql_of (renormalise_lookups sess tidier p)) in Hnames.
  unfold sql_of in *. rewrite Hnames.
  rewrite map_app in Hno. apply NoDup_app in Hno as (_ & Hdisj & _).
  apply Hdisj. apply list_elem_of_fmap. by exists c.
Qed.

(** C6, as stated, fails.  In [Items] both texts of the input row are in
    the lookup maps, yet the row maker raises [KeyError]: the first entry
    stores its surrogate under [a_id], the name the second entry pops.  In
    [Posts] the foreign key [owner] tidies to itself, so the tidied key is
    still in the returned row.  In [Members] the simple column
    [accounttype] has the tidied name of the foreign key [accounttype_id],
    so its entry is taken for the natural key and is gone from the
    returned row. *)
Lemma row_maker_all_present_fails :
  (exists p f L1 L2,
     _normalisation_info ClashSchema.metadata ClashSchema.Items = Ok p
     /\ renormalise_prepare ClashSchema.session_y ClashSchema.metadata
          ClashSchema.Items _tidy_colname = Ok f
     /\ renormalise_lookups ClashSchema.session_y _tidy_colname p
        = [("a", "a_id", L1); ("a_id", "a_id_id", L2)]
     /\ ClashSchema.input !! "a" = Some (VStr "x") /\ L1 !! "x" = Some (VStr "z")
     /\ ClashSchema.input !! "a_id" = Some (VStr "y") /\ L2 !! "y" = Some (VInt 7)
     /\ f ClashSchema.input = Raise (KeyError (VStr "z")))
  /\ (exists f r,
        renormalise_prepare ClashSchema.session_posts ClashSchema.metadata_posts
          ClashSchema.Posts _tidy_colname = Ok f
        /\ f (TestSchema.row [("slug", VStr "s"); ("owner", VStr "bob")]) = Ok r
        /\ r !! _tidy_colname "owner" = Some (VInt 7))
  /\ (exists p f r c,
        _normalisation_info ClashSchema.metadata_members ClashSchema.Members = Ok p
        /\ renormalise_prepare TestSchema.db_session ClashSchema.metadata_members
             ClashSchema.Members _tidy_colname = Ok f
        /\ f (TestSchema.row [("accounttype", VStr "admin")]) = Ok r
        /\ c ∈ simple_cols p /\ name c = "accounttype"
        /\ r !! name c = None).
Proof.
  split; [|split].
  - do 4 eexists. split; [vm_compute; reflexivity|].
    split; [reflexivity|]. split; [reflexivity|].
    repeat split; vm_compute; reflexivity.
  - do 2 eexists. split; [reflexivity|]. split; vm_compute; reflexivity.
  - eexists. eexists. eexists.
    exists (TestSchema.mk_column "members" "accounttype" false false false [] str_t).
    split; [vm_compute; reflexivity|]. split; [reflexivity|].
    split; [vm_compute; reflexivity|].
    split; [repeat constructor|]. split; vm_compute; reflexivity.
Qed.

(** C6, amended: when the names of the denormalised columns are compatible
    (no tidied name twice, no original name twice, and no original name
    equal to the tidied name of a later column) and the input row holds
    under every tidied name a text that the column's lookup map resolves,
    the row maker returned by [renormalise_prepare] returns a row in which
    every original foreign-key name holds the resolved surrogate, every
    tidied name that is not itself an original name is absent, and every
    entry under a key that is neither a tidied nor an original name is
    unchanged.  The entries of the simple columns are among the unchanged
    ones when the table has distinct column names and no simple column has
    the tidied name of a denormalised column. *)
Theorem row_maker_spec (sess : Session) (md : MetaData) (t : Table)
    (tidier : string -> string) (p : Plan) (d : Row) :
  _normalisation_info md t = Ok p ->
  names_compatible (renormalise_lookups sess tidier p) ->
  all_resolved (renormalise_lookups sess tidier p) d ->
  map (fun l => (csv_of l, sql_of l)) (renormalise_lookups sess tidier p)
    = map (fun fk => (tidier (name fk), name fk)) (from_columns p)
  /\ exists f r,
       renormalise_prepare sess md t tidier = Ok f
       /\ f d = Ok r
       /\ (forall l, l ∈ renormalise_lookups sess tidier p ->
             exists s, d !! csv_of l = Some (VStr s)
                       /\ r !! sql_of l = map_of l !! s)
       /\ (forall k, k ∈ map csv_of (renormalise_lookups sess tidier p) ->
                     k ∉ map sql_of (renormalise_lookups sess tidier p) ->
                     r !! k = None)
       /\ (forall k, k ∉ map csv_of (renormalise_lookups sess tidier p) ->
                     k ∉ map sql_of (renormalise_lookups sess tidier p) ->
                     r !! k = d !! k)
       /\ (distinct_names t ->
           (forall c, c ∈ simple_cols p ->
                      name c ∉ map csv_of (renormalise_lookups sess tidier p)) ->
           forall c, c ∈ simple_cols p -> r !! name c = d !! name c).
Proof.
  intros Hp Hnames Hres.
  split; [by apply (renormalise_lookups_names sess md t)|].
  destruct (row_maker_total _ d Hnames Hres) as (r & Hrun & Hsur & Hgone & Hkeep).
  exists (_row_maker (renormalise_lookups sess tidier p)), r.
  split; [by apply renormalise_prepare_unfold|].
  split; [done|]. split; [done|]. split; [done|]. split; [done|].
  intros Hnd Hsimple c Hc. apply Hkeep; [by apply Hsimple|].
  by apply (simple_not_sql_name sess md t).
Qed.

Lemma row_maker_spec_witness :
  exists p, _normalisation_info TestSchema.metadata TestSchema.NormalisedTable = Ok p
    /\ exists f r,
         renormalise_prepare TestSchema.db_session TestSchema.metadata
           TestSchema.NormalisedTable _tidy_colname = Ok f
         /\ f (TestSchema.row [("username", VStr "bob"); ("name", VStr "Big Bob");
                               ("accounttype", VStr "admin"); ("age", VStr "31");
                               ("valid", VStr "True")]) = Ok r
         /\ (forall l, l ∈ renormalise_lookups TestSchema.db_session _tidy_colname p ->
               exists s,
                 TestSchema.row [("username", VStr "bob"); ("name", VStr "Big Bob");
                                 ("accounttype", VStr "admin"); ("age", VStr "31");
                                 ("valid", VStr "True")] !! csv_of l = Some (VStr s)
                 /\ r !! sql_of l = map_of l !! s)
         /\ r !! "accounttype" = None
         /\ r !! "username" = Some (VStr "bob")
         /\ r !! "age" = Some (VStr "31").
Proof.
  eexists. split; [vm_compute; reflexivity|].
  match goal with
  | |- context [renormalise_lookups _ _ ?p] =>
      destruct (row_maker_spec TestSchema.db_session TestSchema.metadata
                  TestSchema.NormalisedTable _tidy_colname p
                  (TestSchema.row [("username", VStr "bob"); ("name", VStr "Big Bob");
                                   ("accounttype", VStr "admin"); ("age", VStr "31");
                                   ("valid", VStr "True")]))
        as (_ & f & r & Hf & Hr & Hsur & Hgone & _ & Hsimple)
  end.
  - vm_compute. reflexivity.
  - simpl. repeat split; apply not_elem_of_nil.
  - intros l Hl. apply list_elem_of_singleton in Hl as ->.
    exists "admin", (VInt 1). split; vm_compute; reflexivity.
  - assert (Hcols : forall c,
              c ∈ [TestSchema.mk_column "normalised_table" "username" false true
                     false [] str_t;
                   TestSchema.mk_column "normalised_table" "name" false false
                     true [] str_t;
                   TestSchema.mk_column "normalised_table" "age" false false
                     false [] int_t;
                   TestSchema.mk_column "normalised_table" "valid" false false
                     false [] bool_t;
                   TestSchema.mk_column "normalised_table" "nonk_id" false false true
                     [ {| fk_table := "lookup_nonk_table"; fk_colname := "id" |} ]
                     int_t] ->
              name c ∉ ["accounttype"]).
    { intros c Hc.
      repeat (apply elem_of_cons in Hc as [->|Hc];
              [apply not_elem_of_cons; split; [discriminate|apply not_elem_of_nil]|]).
      by apply elem_of_nil in Hc. }
    specialize (Hsimple NormalisedTable_distinct_names Hcols).
    exists f, r. split; [exact Hf|]. split; [exact Hr|]. split; [exact Hsur|].
    split; [|split].
    + apply Hgone; [repeat constructor|].
      apply not_elem_of_cons; split; [discriminate|apply not_elem_of_nil].
    + apply (Hsimple (TestSchema.mk_column "normalised_table" "username" false true
                        false [] str_t)). repeat constructor.
    + apply (Hsimple (TestSchema.mk_column "normalised_table" "age" false false
                        false [] int_t)). repeat constructor.
Defined.

(** ** The type coercer *)

Section TypeCoercerProperties.

Variable dateutil_parse : string -> Result Value.

Abbreviation coercer_of c :=
  (default (fun x => Ok (VStr x)) (_COERCE dateutil_parse (python_type c))).

Lemma coerceables_fold_other (l : list Column)
    (m : gmap string (string -> Result Value)) (k : string) :
  k ∉ map name l ->
  fold_left (fun (m : gmap string (string -> Result Value)) c =>
               <[name c := coercer_of c]> m) l m !! k = m !! k.
Proof.
  revert m. induction l as [|x l IH]; intros m Hk; simpl; [done|].
  simpl in Hk. apply not_elem_of_cons in Hk as [Hne Hk].
  rewrite IH by done. by rewrite lookup_insert_ne.
Qed.

(** With distinct column names, each column has its own coercer. *)
Lemma coerceables_lookup (t : Table) (c : Column) :
  distinct_names t -> c ∈ columns t ->
  coerceables dateutil_parse t !! name c = Some (coercer_of c).
Proof.
  unfold distinct_names, coerceables. generalize (∅ : gmap string (string -> Result Value)).
  induction (columns t) as [|x l IH]; intros m Hnd Hc; simpl.
  - by apply elem_of_nil in Hc.
  - simpl in Hnd. apply NoDup_cons in Hnd as [Hx Hnd].
    apply elem_of_cons in Hc as [->|Hc].
    + rewrite coerceables_fold_other by done. apply lookup_insert_eq.
    + by apply IH.
Qed.

(** When every text of the row has a coercer that accepts it, the loop
    returns the row with each text coerced and nothing else changed. *)
Lemma row_coercer_total (cs : gmap string (string -> Result Value)) (d : Row) :
  (forall k s, d !! k = Some (VStr s) ->
     exists f v, cs !! k = Some f /\ f s = Ok v) ->
  exists r, map_fold (coerce_entry cs) (Ok d) d = Ok r
    /\ forall k, r !! k = coerced cs d k.
Proof.
  intros Hall.
  assert (Hgen : forall d0 : Row,
    (forall k s, d !! k = Some (VStr s) ->
       exists f v, cs !! k = Some f /\ f s = Ok v) ->
    exists r, map_fold (coerce_entry cs) (Ok d0) d = Ok r
      /\ forall k, r !! k = match d !! k with
                            | Some (VStr s) => coerced cs d k
                            | _ => d0 !! k
                            end).
  { intros d0. unfold coerced.
    apply (map_fold_weak_ind
             (fun acc (m : Row) =>
                (forall k s, m !! k = Some (VStr s) ->
                   exists f v, cs !! k = Some f /\ f s = Ok v) ->
                exists r, acc = Ok r
                  /\ forall k, r !! k = match m !! k with
                                        | Some (VStr s) =>
                                            match m !! k with
                                            | Some (VStr s) =>
                                                match cs !! k with
                                                | Some f =>
                                                    match f s with
                                                    | Ok v => Some v
                                                    | Raise _ => None
                                                    end
                                                | None => None
                                                end
                                            | other => other
                                            end
                                        | _ => d0 !! k
                                        end)).
    - intros _. exists d0. split; [done|]. intros k. by rewrite lookup_empty.
    - intros i x m acc Hi IH Hm.
      destruct IH as (r & -> & Hr).
      { intros k s Hk. apply Hm. rewrite lookup_insert_ne; [done|].
        intros ->. congruence. }
      unfold coerce_entry. simpl.
      destruct x as [|b|z|s|iso];
        try (exists r; split; [done|]; intros k;
             destruct (decide (i = k)) as [->|Hne];
             [rewrite lookup_insert_eq, Hr, Hi; done
             |rewrite lookup_insert_ne by done; apply Hr]).
      destruct (Hm i s) as (f & v & Hf & Hv); [apply lookup_insert_eq|].
      rewrite Hf. simpl. rewrite Hv. simpl.
      exists (<[i := v]> r). split; [done|]. intros k.
      destruct (decide (i = k)) as [->|Hne].
      + rewrite !lookup_insert_eq, Hf, Hv. done.
      + rewrite !lookup_insert_ne by done. apply Hr. }
  destruct (Hgen d Hall) as (r & Hrun & Hr).
  exists r. split; [done|]. intros k. rewrite Hr. unfold coerced.
  by destruct (d !! k) as [[]|].
Qed.

End TypeCoercerProperties.

Section TypeCoercerBoolean.

Variable dateutil_parse : string -> Result Value.

(** C9: the coercer of a boolean column maps the text [True] to true and
    every other text to false, and raises for none.  On a row whose other
    texts are accepted by their own coercers, [type_coercer] returns a
    row in which the text of each boolean column is so mapped, and every
    value that is not a text is left as it is. *)
Theorem type_coercer_boolean (t : Table) :
  distinct_names t ->
  (forall c, c ∈ columns t -> python_type c = bool_t ->
     exists f, coerceables dateutil_parse t !! name c = Some f
               /\ forall s, f s = Ok (VBool (String.eqb s "True")))
  /\ forall d : Row,
       (forall k s, d !! k = Some (VStr s) ->
          boolean_column t k
          \/ exists f v, coerceables dateutil_parse t !! k = Some f /\ f s = Ok v) ->
       exists r, type_coercer dateutil_parse t d = Ok r
         /\ (forall c s, c ∈ columns t -> python_type c = bool_t ->
               d !! name c = Some (VStr s) ->
               r !! name c = Some (VBool (String.eqb s "True")))
         /\ (forall k v, d !! k = Some v -> (forall s, v <> VStr s) ->
               r !! k = Some v)
         /\ (forall k, d !! k = None -> r !! k = None).
Proof.
  intros Hnd.
  assert (Hbool : forall c, c ∈ columns t -> python_type c = bool_t ->
    exists f, coerceables dateutil_parse t !! name c = Some f
              /\ forall s, f s = Ok (VBool (String.eqb s "True"))).
  { intros c Hc Hty. eexists. split; [by apply coerceables_lookup|].
    intros s. by rewrite Hty. }
  split; [done|]. intros d Hd.
  destruct (row_coercer_total (coerceables dateutil_parse t) d) as (r & Hrun & Hr).
  { intros k s Hk. destruct (Hd k s Hk) as [(c & Hc & <- & Hty)|?]; [|done].
    destruct (Hbool c Hc Hty) as (f & Hf & Hfs). exists f. eexists. eauto. }
  exists r. split; [done|]. split; [|split].
  - intros c s Hc Hty Hk. rewrite Hr. unfold coerced. rewrite Hk.
    destruct (Hbool c Hc Hty) as (f & -> & Hfs). by rewrite Hfs.
  - intros k v Hk Hv. rewrite Hr. unfold coerced. rewrite Hk.
    destruct v; try done. by destruct (Hv s).
  - intros k Hk. rewrite Hr. unfold coerced. by rewrite Hk.
Qed.

End TypeCoercerBoolean.

Lemma type_coercer_boolean_witness :
  let parse := fun s => Raise (ParserError s) in
  let d := <["valid" := VStr "Maybe"]> (<["age" := VInt 31]> (∅ : Row)) in
  exists r, type_coercer parse TestSchema.NormalisedTable d = Ok r
    /\ r !! "valid" = Some (VBool false)
    /\ r !! "age" = Some (VInt 31).
Proof.
  intros parse d.
  destruct (proj2 (type_coercer_boolean parse TestSchema.NormalisedTable
                     NormalisedTable_distinct_names) d)
    as (r & Hrun & Hbool & Hkeep & _).
  - intros k s Hk. left. unfold d in Hk.
    apply lookup_insert_Some in Hk as [[<- _]|[_ Hk]].
    + exists (TestSchema.mk_column "normalised_table" "valid" false false false []
                bool_t).
      split; [repeat constructor|split; reflexivity].
    + apply lookup_insert_Some in Hk as [[_ [=]]|[_ Hk]].
      by rewrite lookup_empty in Hk.
  - exists r. split; [exact Hrun|]. split.
    + apply (Hbool (TestSchema.mk_column "normalised_table" "valid" false false
                      false [] bool_t) "Maybe").
      * repeat constructor.
      * reflexivity.
      * reflexivity.
    + apply (Hkeep "age" (VInt 31)); [reflexivity|]. intros s. discriminate.
Defined.

(** The rows of [test_type_coercer] and the scenario of the specification. *)
Example type_coercer_test_rows (parse : string -> Result Value) :
  type_coercer parse TestSchema.NormalisedTable
    (TestSchema.row [("username", VStr "bob"); ("name", VStr "Big Bob");
                     ("accounttype_id", VStr "1"); ("age", VStr "31");
                     ("valid", VStr "True")])
  = Ok (TestSchema.row [("username", VStr "bob"); ("name", VStr "Big Bob");
                        ("accounttype_id", VStr "1"); ("age", VStr "31");
                        ("valid", VBool true)])
  /\ type_coercer parse TestSchema.NormalisedTable
       (TestSchema.row [("username", VStr "joe"); ("valid", VStr "False")])
     = Ok (TestSchema.row [("username", VStr "joe"); ("valid", VBool false)])
  /\ type_coercer parse TestSchema.NormalisedTable
       (TestSchema.row [("valid", VStr "Maybe")])
     = Ok (TestSchema.row [("valid", VBool false)]).
Proof. repeat split; vm_compute; reflexivity. Qed.

(** * Further properties of the code *)

(** ** The default column-name tidier *)

Lemma tidy_colname_unfold (n : string) :
  _tidy_colname n
  = if String.eqb n "_id" then ""
    else if String.eqb n ("_id" ++ newline)%string then newline
    else match n with
         | EmptyString => EmptyString
         | String a rest => String a (_tidy_colname rest)
         end.
Proof. by destruct n. Qed.

Lemma append_length (s1 s2 : string) :
  String.length (s1 ++ s2)%string = String.length s1 + String.length s2.
Proof. induction s1 as [|a s1 IH]; simpl; [done|]. by rewrite IH. Qed.

Lemma cons_append_id_ne (a : Ascii.ascii) (s : string) :
  String a (s ++ "_id") <> "_id".
Proof.
  intros H. apply (f_equal String.length) in H. simpl in H.
  rewrite append_length in H. simpl in H. lia.
Qed.

Lemma cons_append_id_ne_newline (a : Ascii.ascii) (s : string) :
  String a (s ++ "_id") <> ("_id" ++ newline)%string.
Proof.
  intros H. destruct s as [|b s].
  - vm_compute in H. discriminate.
  - apply (f_equal String.length) in H. simpl in H.
    rewrite append_length in H. simpl in H. lia.
Qed.

(** X1: the default tidier removes the suffix [_id] from every name that
    ends in it, whatever stands before. *)
Theorem tidy_colname_strips_id (s : string) :
  _tidy_colname (s ++ "_id") = s.
Proof.
  induction s as [|a s IH]; [reflexivity|].
  rewrite tidy_colname_unfold. change (String a s ++ "_id")%string with (String a (s ++ "_id")).
  destruct (String.eqb_spec (String a (s ++ "_id")) "_id") as [H|_];
    [by apply cons_append_id_ne in H|].
  destruct (String.eqb_spec (String a (s ++ "_id")) ("_id" ++ newline)%string) as [H|_];
    [by apply cons_append_id_ne_newline in H|].
  by rewrite IH.
Qed.

(** X2: the default tidier changes a name in two cases only: a final [_id]
    is dropped, and an [_id] before a final newline is dropped; every other
    name is returned as it is. *)
Theorem tidy_colname_cases (n : string) :
  (exists s, n = (s ++ "_id")%string /\ _tidy_colname n = s)
  \/ (exists s, n = (s ++ "_id" ++ newline)%string
                /\ _tidy_colname n = (s ++ newline)%string)
  \/ (_tidy_colname n = n
      /\ forall s, n <> (s ++ "_id")%string /\ n <> (s ++ "_id" ++ newline)%string).
Proof.
  induction n as [|a n IH].
  - right. right. split; [reflexivity|]. intros s.
    split; intros H; apply (f_equal String.length) in H; simpl in H;
      rewrite append_length in H; simpl in H; lia.
  - rewrite tidy_colname_unfold.
    destruct (String.eqb_spec (String a n) "_id") as [H|Hne1].
    { left. exists "". by rewrite H. }
    destruct (String.eqb_spec (String a n) ("_id" ++ newline)%string) as [H|Hne2].
    { right. left. exists "". by rewrite H. }
    destruct IH as [(s & -> & ->)|[(s & -> & ->)|[-> Hn]]].
    + left. by exists (String a s).
    + right. left. by exists (String a s).
    + right. right. split; [done|]. intros s. split; intros H.
      * destruct s as [|b s]; [done|]. injection H as -> ->.
        by destruct (Hn s) as [? _].
      * destruct s as [|b s]; [done|]. injection H as -> ->.
        by destruct (Hn s) as [_ ?].
Qed.

(** ** The plan and the query built from it *)

Lemma fk_step_entry (md : MetaData) (p p' : Plan) (fk : Column) :
  fk_step md p fk = Ok p' ->
  (passes_raw md fk = true /\ p' = add_raw p fk)
  \/ exists e : Entry,
       e_fk e = fk /\ entry_ok md e
       /\ p' = add_denormalised p fk (element (e_label e)) (e_column e) (e_table e)
       /\ e_label e = {| element := element (e_label e); label_name := name fk |}.
Proof.
  intros Hstep. apply fk_step_ok in Hstep
    as [?|(Hraw & tc & tt & nk & rest & Ht & Hnk & ->)]; [by left|].
  right. exists (fk, {| element := nk; label_name := name fk |}, tt, tc).
  unfold entry_ok, e_fk, e_label, e_table, e_column. simpl.
  repeat split; try done. by exists rest.
Qed.

(** The four lists the loop extends are the four projections of one list
    of entries, one for each foreign key that fails the loop's test. *)
Lemma fk_loop_entries (md : MetaData) (fks : list Column) (p p' : Plan) :
  fk_loop md fks p = Ok p' ->
  exists es : list Entry,
    Forall (entry_ok md) es
    /\ map e_fk es = List.filter (fun fk => negb (passes_raw md fk)) fks
    /\ simple_cols p' = simple_cols p ++ List.filter (passes_raw md) fks
    /\ from_columns p' = from_columns p ++ map e_fk es
    /\ denormalised_cols p' = denormalised_cols p ++ map e_label es
    /\ to_tables p' = to_tables p ++ map e_table es
    /\ to_columns p' = to_columns p ++ map e_column es.
Proof.
  revert p. induction fks as [|fk fks IH]; intros p; simpl.
  - intros [= <-]. exists []. simpl. rewrite !app_nil_r. by repeat split.
  - destruct (fk_step md p fk) as [p1|e] eqn:Hstep; simpl; [|done].
    intros Hloop. apply IH in Hloop as (es & Hok & Hfk & Hs & Hf & Hd & Ht & Hc).
    apply fk_step_entry in Hstep as [[Hraw ->]|(e & He & Hgood & -> & Hlab)].
    + exists es. rewrite Hraw. simpl in *.
      rewrite Hs, <- app_assoc. by repeat split.
    + exists (e :: es). destruct Hgood as (Hg1 & Hraw & Hg3 & Hg4).
      subst fk. rewrite Hraw. simpl in *.
      rewrite Hs, Hf, Hd, Ht, Hc, Hfk, <- !app_assoc, <- Hlab. simpl.
      repeat split; try done. by constructor.
Qed.

Lemma normalisation_info_entries (md : MetaData) (t : Table) (p : Plan) :
  _normalisation_info md t = Ok p ->
  exists es : list Entry,
    Forall (entry_ok md) es
    /\ map e_fk es
       = List.filter (fun fk => negb (passes_raw md fk)) (part_foreign_keys t)
    /\ simple_cols p
       = (maybe_primary_keys t ++ part_other t)
         ++ List.filter (passes_raw md) (part_foreign_keys t)
    /\ from_columns p = map e_fk es
    /\ denormalised_cols p = map e_label es
    /\ to_tables p = map e_table es
    /\ to_columns p = map e_column es.
Proof.
  intros Hp. unfold _normalisation_info in Hp.
  apply fk_loop_entries in Hp as (es & H). exists es. simpl in H. exact H.
Qed.

Lemma zip3_entries (es : list Entry) :
  zip (zip (map e_table es) (map e_column es)) (map e_fk es)
  = map (fun e => (e_table e, e_column e, e_fk e)) es.
Proof. induction es as [|e es IH]; simpl; [done|]. by rewrite IH. Qed.

(** The natural key of the target of an entry is one unique column that is
    neither a primary key nor a foreign key. *)
Lemma entry_natural_key (md : MetaData) (e : Entry) :
  entry_ok md e ->
  find_natural_key (e_table e) = [element (e_label e)]
  /\ element (e_label e) ∈ columns (e_table e)
  /\ unique (element (e_label e)) = true
  /\ primary_key (element (e_label e)) = false
  /\ foreign_keys (element (e_label e)) = [].
Proof.
  intros (Ht & Hraw & _ & rest & Hnk).
  unfold passes_raw in Hraw. rewrite Ht in Hraw.
  rewrite has_primary_key_natural in Hraw.
  rewrite find_natural_key_unfold in Hnk.
  destruct (Nat.eqb (length (unique_others (e_table e))) 1) eqn:Hlen.
  - destruct (unique_others (e_table e)) as [|N [|? ?]] eqn:Hu; try done.
    injection Hnk as HN <-. subst N.
    assert (Hin : element (e_label e) ∈ unique_others (e_table e))
      by (rewrite Hu; constructor).
    unfold unique_others in Hin. apply in_filter_iff in Hin as [Hin Huniq].
    rewrite find_natural_key_unfold, Hu.
    split; [done|]. rewrite part_other_filter in Hin.
    apply in_filter_iff in Hin as [Hin Hoth]. unfold is_other, is_fk in Hoth.
    apply andb_true_iff in Hoth as [Hfk Hpk].
    apply negb_true_iff in Hfk, Hpk.
    repeat split; try done. by destruct (foreign_keys (element (e_label e))).
  - simpl in Hraw. rewrite Hnk in Hraw. done.
Qed.

(** The columns of a plan are the columns of the table, the primary keys
    left out when [maybe_primary_keys] is empty. *)
Lemma plan_columns_perm (md : MetaData) (t : Table) (p : Plan) :
  _normalisation_info md t = Ok p ->
  simple_cols p ++ from_columns p
  ≡ₚ maybe_primary_keys t ++ part_other t ++ part_foreign_keys t.
Proof.
  intros Hp. apply normalisation_info_fk_outcomes in Hp as (Hs & _ & _ & Hperm & _).
  rewrite Hs, <- !app_assoc. do 2 apply Permutation_app_head.
  symmetry. exact Hperm.
Qed.

(** A successful loop resolved every foreign key to a target with a
    natural key that is not empty. *)
Lemma fk_loop_plannable (md : MetaData) (fks : list Column) (p p' : Plan) :
  fk_loop md fks p = Ok p' -> forall fk, fk ∈ fks -> fk_plannable md fk.
Proof.
  revert p. induction fks as [|fk0 fks IH]; intros p; simpl.
  - intros _ fk Hfk. by apply elem_of_nil in Hfk.
  - destruct (fk_step md p fk0) as [p1|e] eqn:Hstep; simpl; [|done].
    intros Hloop fk Hfk. apply elem_of_cons in Hfk as [->|Hfk]; [|by eapply IH].
    rewrite fk_step_unfold in Hstep. unfold fk_plannable.
    destruct (fk_target md fk0) as [[tc tt]|e]; [|done].
    exists tc, tt. split; [done|].
    destruct (has_primary_key (find_natural_key tt)) eqn:Hpk.
    + unfold has_primary_key in Hpk. intros Hnil. by rewrite Hnil in Hpk.
    + by destruct (find_natural_key tt).
Qed.

(** X3: a plan loses no column and repeats none: its simple columns and
    the foreign keys it denormalises are, up to order, the columns of the
    table without the primary keys that [maybe_primary_keys] leaves out;
    and the four lists kept for the joins have the same length. *)
Theorem normalisation_info_covers (md : MetaData) (t : Table) (p : Plan) :
  _normalisation_info md t = Ok p ->
  simple_cols p ++ from_columns p
    ≡ₚ maybe_primary_keys t ++ part_other t ++ part_foreign_keys t
  /\ length (denormalised_cols p) = length (from_columns p)
  /\ length (to_tables p) = length (from_columns p)
  /\ length (to_columns p) = length (from_columns p).
Proof.
  intros Hp. split; [by apply (plan_columns_perm md)|].
  apply normalisation_info_entries in Hp as (es & _ & _ & _ & -> & -> & -> & ->).
  by rewrite !length_map.
Qed.

Lemma normalisation_info_covers_witness :
  exists p, _normalisation_info TestSchema.metadata TestSchema.NormalisedTable = Ok p
    /\ simple_cols p ++ from_columns p
       ≡ₚ maybe_primary_keys TestSchema.NormalisedTable
          ++ part_other TestSchema.NormalisedTable
          ++ part_foreign_keys TestSchema.NormalisedTable
    /\ length (denormalised_cols p) = length (from_columns p).
Proof.
  eexists. split; [vm_compute; reflexivity|].
  match goal with
  | |- context [simple_cols ?p] =>
      destruct (normalisation_info_covers TestSchema.metadata
                  TestSchema.NormalisedTable p) as (Hperm & Hlen & _)
  end.
  - vm_compute. reflexivity.
  - split; [exact Hperm|exact Hlen].
Defined.

(** X4: the i-th denormalised column of a plan belongs to the i-th foreign
    key kept for the joins: it carries that key's name, and it projects the
    natural key of the key's resolved target table, which is a single
    unique column of that table, neither primary key nor foreign key. *)
Theorem denormalised_column_spec (md : MetaData) (t : Table) (p : Plan)
    (i : nat) (l : Label) :
  _normalisation_info md t = Ok p ->
  denormalised_cols p !! i = Some l ->
  exists fk tt tc,
    from_columns p !! i = Some fk
    /\ to_tables p !! i = Some tt
    /\ to_columns p !! i = Some tc
    /\ fk ∈ part_foreign_keys t
    /\ label_name l = name fk
    /\ fk_target md fk = Ok (tc, tt)
    /\ find_natural_key tt = [element l]
    /\ element l ∈ columns tt
    /\ unique (element l) = true
    /\ primary_key (element l) = false
    /\ foreign_keys (element l) = [].
Proof.
  intros Hp Hl.
  apply normalisation_info_entries in Hp as (es & Hok & Hfk & _ & Hf & Hd & Ht & Hc).
  rewrite Hd, list_lookup_fmap in Hl.
  destruct (es !! i) as [e|] eqn:He; [|done]. injection Hl as <-.
  assert (Hgood : entry_ok md e).
  { rewrite Forall_forall in Hok. apply Hok. by eapply list_elem_of_lookup_2. }
  destruct (entry_natural_key md e Hgood) as (Hnk & Hin & Hu & Hpk & Hnofk).
  destruct Hgood as (Htarget & _ & Hname & _).
  exists (e_fk e), (e_table e), (e_column e).
  rewrite Hf, Ht, Hc, !list_lookup_fmap, He. simpl.
  repeat split; try done.
  assert (Hmem : e_fk e ∈ map e_fk es).
  { apply list_elem_of_fmap. exists e. split; [done|]. by eapply list_elem_of_lookup_2. }
  rewrite Hfk in Hmem. by apply in_filter_iff in Hmem as [? _].
Qed.

Lemma denormalised_column_spec_witness :
  exists p, _normalisation_info TestSchema.metadata TestSchema.NormalisedTable = Ok p
    /\ exists fk tt tc,
         from_columns p !! 0 = Some fk
         /\ name fk = "accounttype_id"
         /\ fk_target TestSchema.metadata fk = Ok (tc, tt)
         /\ find_natural_key tt
            = [TestSchema.mk_column "lookup_table" "description" false true false
                 [] str_t].
Proof.
  eexists. split; [vm_compute; reflexivity|].
  match goal with
  | |- context [from_columns ?p] =>
      destruct (denormalised_column_spec TestSchema.metadata
                  TestSchema.NormalisedTable p 0
                  {| element := TestSchema.mk_column "lookup_table" "description"
                                  false true false [] str_t;
                     label_name := "accounttype_id" |})
        as (fk & tt & tc & Hf & _ & _ & _ & Hname & Ht & Hnk & _)
  end.
  - vm_compute. reflexivity.
  - reflexivity.
  - exists fk, tt, tc. split; [exact Hf|]. split; [symmetry; exact Hname|].
    split; [exact Ht|exact Hnk].
Defined.

Lemma denormalise_prepare_unfold (md : MetaData) (t : Table)
    (tidier : string -> string) (p : Plan) :
  _normalisation_info md t = Ok p ->
  denormalise_prepare md t tidier
  = Ok (_denormalise_query
          (map SelColumn (simple_cols p) ++ map SelLabel (denormalised_cols p))
          (to_tables p) (to_columns p) (from_columns p),
        map name (simple_cols p)
        ++ map (fun l => tidier (label_name l)) (denormalised_cols p)).
Proof. intros Hp. unfold denormalise_prepare. by rewrite Hp. Qed.

Lemma denormalise_prepare_plan (md : MetaData) (t : Table)
    (tidier : string -> string) (q : Query) (cols : list string) :
  denormalise_prepare md t tidier = Ok (q, cols) ->
  exists p, _normalisation_info md t = Ok p
    /\ q = _denormalise_query
             (map SelColumn (simple_cols p) ++ map SelLabel (denormalised_cols p))
             (to_tables p) (to_columns p) (from_columns p)
    /\ cols = map name (simple_cols p)
              ++ map (fun l => tidier (label_name l)) (denormalised_cols p).
Proof.
  unfold denormalise_prepare.
  destruct (_normalisation_info md t) as [p|e]; simpl; [|done].
  intros [= <- <-]. by exists p.
Qed.

(** X5: the query of [denormalise_prepare] selects the simple columns of
    the plan and then its denormalised columns, and the returned names go
    with the selected columns position by position: a simple column under
    its own name, a denormalised column under the tidied form of its
    label.  The query has exactly one join for each denormalised column,
    in the same order: the i-th join is on the table and column that the
    foreign key labelling the i-th denormalised column resolves to, and
    the column projected there is a column of the joined table. *)
Theorem denormalise_prepare_query (md : MetaData) (t : Table)
    (tidier : string -> string) (q : Query) (cols : list string) :
  denormalise_prepare md t tidier = Ok (q, cols) ->
  exists p, _normalisation_info md t = Ok p
    /\ q_columns q
       = map SelColumn (simple_cols p) ++ map SelLabel (denormalised_cols p)
    /\ Forall2 (fun n s => match s with
                           | SelColumn c => n = name c
                           | SelLabel l => n = tidier (label_name l)
                           end) cols (q_columns q)
    /\ length (q_joins q) = length (denormalised_cols p)
    /\ forall i l, denormalised_cols p !! i = Some l ->
         exists tt tc fk,
           q_joins q !! i = Some (tt, tc, fk)
           /\ fk ∈ part_foreign_keys t
           /\ label_name l = name fk
           /\ fk_target md fk = Ok (tc, tt)
           /\ element l ∈ columns tt.
Proof.
  intros Hq. apply denormalise_prepare_plan in Hq as (p & Hp & -> & ->).
  exists p. split; [done|]. split; [done|].
  apply normalisation_info_entries in Hp as (es & Hok & Hfk & _ & Hf & Hd & Ht & Hc).
  simpl. rewrite Hf, Hd, Ht, Hc, zip3_entries, !length_map.
  split; [|split; [done|]].
  - apply Forall2_app.
    + clear. induction (simple_cols p) as [|c l IH]; simpl.
      * constructor.
      * constructor; [reflexivity|exact IH].
    + clear. induction es as [|e es' IH]; simpl.
      * constructor.
      * constructor; [reflexivity|exact IH].
  - intros i l Hl. rewrite list_lookup_fmap in Hl.
    destruct (es !! i) as [e|] eqn:He; [|done]. injection Hl as <-.
    assert (Hin : e ∈ es) by (by eapply list_elem_of_lookup_2).
    assert (Hgood : entry_ok md e) by (rewrite Forall_forall in Hok; by apply Hok).
    destruct (entry_natural_key md e Hgood) as (_ & Hcol & _).
    destruct Hgood as (Htarget & _ & Hname & _).
    exists (e_table e), (e_column e), (e_fk e).
    rewrite list_lookup_fmap, He. simpl.
    split; [done|]. split; [|done].
    assert (Hmem : e_fk e ∈ map e_fk es) by (apply list_elem_of_fmap; eauto).
    rewrite Hfk in Hmem. by apply in_filter_iff in Hmem as [? _].
Qed.

Lemma denormalise_prepare_query_witness :
  exists q cols,
    denormalise_prepare TestSchema.metadata TestSchema.NormalisedTable _tidy_colname
    = Ok (q, cols)
    /\ Forall2 (fun n s => match s with
                           | SelColumn c => n = name c
                           | SelLabel l => n = _tidy_colname (label_name l)
                           end) cols (q_columns q)
    /\ length (q_joins q) = 1
    /\ exists tt tc fk,
         q_joins q !! 0 = Some (tt, tc, fk)
         /\ name fk = "accounttype_id"
         /\ fk_target TestSchema.metadata fk = Ok (tc, tt)
         /\ TestSchema.mk_column "lookup_table" "description" false true false []
              str_t ∈ columns tt.
Proof.
  eexists. eexists.
  assert (H : denormalise_prepare TestSchema.metadata TestSchema.NormalisedTable
                _tidy_colname = Ok (?[q], ?[cols])) by (vm_compute; reflexivity).
  destruct (denormalise_prepare_query _ _ _ _ _ H)
    as (p & Hp & _ & Hnames & Hlen & Hjoin).
  assert (Hd : denormalised_cols p
               = [ {| element := TestSchema.mk_column "lookup_table" "description"
                                   false true false [] str_t;
                      label_name := "accounttype_id" |} ]).
  { vm_compute in Hp. by injection Hp as <-. }
  split; [exact H|]. split; [exact Hnames|]. split; [by rewrite Hlen, Hd|].
  destruct (Hjoin 0 {| element := TestSchema.mk_column "lookup_table" "description"
                                    false true false [] str_t;
                       label_name := "accounttype_id" |})
    as (tt & tc & fk & Hj & _ & Hname & Htarget & Hcol).
  { by rewrite Hd. }
  exists tt, tc, fk. split; [exact Hj|]. split; [by rewrite <- Hname|].
  split; [exact Htarget|exact Hcol].
Defined.

(** X6: the planner returns a plan exactly when every column of the table
    that has a foreign-key reference can be placed: its first reference
    resolves to a column and a table of the metadata, and the natural key
    of that table is not empty.  Otherwise the planner raises. *)
Theorem normalisation_info_succeeds_iff (md : MetaData) (t : Table) :
  is_Ok (_normalisation_info md t)
  <-> forall fk, fk ∈ columns t -> foreign_keys fk <> [] -> fk_plannable md fk.
Proof.
  assert (Hfks : forall fk, fk ∈ part_foreign_keys t
                            <-> fk ∈ columns t /\ foreign_keys fk <> []).
  { intros fk. rewrite part_foreign_keys_filter, in_filter_iff.
    unfold is_fk. destruct (foreign_keys fk); simpl; intuition congruence. }
  split.
  - intros [p Hp] fk Hin Href. unfold _normalisation_info in Hp.
    eapply fk_loop_plannable; [exact Hp|]. by apply Hfks.
  - intros Hall. unfold _normalisation_info. apply fk_loop_total.
    intros fk Hfk. apply Hfks in Hfk as [Hin Href]. by apply Hall.
Qed.

(** X7: with the identity as tidier the column names of
    [denormalise_prepare] are distinct: they are, up to order, the names
    of the table's columns that the plan keeps. *)
Theorem identity_tidier_names_distinct (md : MetaData) (t : Table)
    (q : Query) (cols : list string) :
  distinct_names t ->
  denormalise_prepare md t (fun n => n) = Ok (q, cols) ->
  NoDup cols
  /\ cols ≡ₚ map name (maybe_primary_keys t ++ part_other t ++ part_foreign_keys t).
Proof.
  intros Hnd Hq. apply denormalise_prepare_plan in Hq as (p & Hp & _ & ->).
  assert (Hlab : map label_name (denormalised_cols p) = map name (from_columns p)).
  { by apply normalisation_info_fk_outcomes in Hp as (_ & _ & ? & _). }
  assert (Hperm : map name (simple_cols p) ++ map label_name (denormalised_cols p)
                  ≡ₚ map name (maybe_primary_keys t ++ part_other t
                               ++ part_foreign_keys t)).
  { rewrite Hlab, <- map_app. apply Permutation_map. by apply (plan_columns_perm md). }
  split; [|done]. rewrite Hperm.
  assert (Hall : NoDup (map name (part_primary_keys t ++ part_other t
                                  ++ part_foreign_keys t))).
  { unfold distinct_names in Hnd.
    rewrite part_primary_keys_filter, part_other_filter, part_foreign_keys_filter.
    assert (Hcols : map name (List.filter is_pk (columns t)
                              ++ List.filter is_other (columns t)
                              ++ List.filter is_fk (columns t))
                    ≡ₚ map name (columns t)).
    { apply Permutation_map. rewrite (three_way_split (columns t)) at 4.
      apply Permutation_app_head. apply Permutation_app_comm. }
    by rewrite Hcols. }
  rewrite maybe_primary_keys_spec.
  destruct (Nat.eqb (length (unique_others t)) 1); [|done].
  simpl. rewrite map_app in Hall. by apply NoDup_app in Hall as (_ & _ & ?).
Qed.

Lemma identity_tidier_names_distinct_witness :
  exists q cols,
    denormalise_prepare TestSchema.metadata TestSchema.NormalisedTable (fun n => n)
    = Ok (q, cols)
    /\ NoDup cols.
Proof.
  eexists. eexists.
  assert (H : denormalise_prepare TestSchema.metadata TestSchema.NormalisedTable
                (fun n => n) = Ok (?[q], ?[cols])) by (vm_compute; reflexivity).
  split; [exact H|].
  apply (identity_tidier_names_distinct _ _ _ _ NormalisedTable_distinct_names H).
Defined.

(** X8: when every foreign key of the table passes the loop's test (in
    particular when the table has no foreign key), nothing is denormalised:
    [denormalise_prepare] returns the plain column names and a query
    without joins, and the row maker of [renormalise_prepare] returns every
    row as it is. *)
Theorem nothing_denormalised (sess : Session) (md : MetaData) (t : Table)
    (tidier : string -> string) :
  (forall fk, fk ∈ part_foreign_keys t -> passes_raw md fk = true) ->
  exists q f,
    denormalise_prepare md t tidier
    = Ok (q, map name (maybe_primary_keys t ++ part_other t ++ part_foreign_keys t))
    /\ q_joins q = []
    /\ renormalise_prepare sess md t tidier = Ok f
    /\ forall d, f d = Ok d.
Proof.
  intros Hall.
  destruct (fk_loop_total md (part_foreign_keys t)
              {| simple_cols := maybe_primary_keys t ++ part_other t;
                 denormalised_cols := []; to_tables := []; to_columns := [];
                 from_columns := [] |}) as [p Hp].
  { intros fk Hfk. specialize (Hall fk Hfk). unfold passes_raw in Hall.
    destruct (fk_target md fk) as [[tc tt]|e] eqn:Ht; [|done].
    exists tc, tt. split; [done|]. intros Hnil.
    unfold has_primary_key in Hall. by rewrite Hnil in Hall. }
  fold (_normalisation_info md t) in Hp.
  destruct (normalisation_info_entries md t p Hp)
    as (es & _ & Hfk & Hs & Hf & Hd & Ht & Hc).
  assert (Hes : es = []).
  { rewrite filter_none in Hfk.
    - by destruct es.
    - intros fk Hin. by rewrite (Hall fk Hin). }
  subst es. simpl in *.
  rewrite filter_all in Hs by done.
  exists (_denormalise_query
            (map SelColumn (maybe_primary_keys t ++ part_other t
                            ++ part_foreign_keys t)) [] [] []),
         (_row_maker (renormalise_lookups sess tidier p)).
  rewrite (denormalise_prepare_unfold md t tidier p Hp).
  rewrite (renormalise_prepare_unfold sess md t tidier p Hp).
  rewrite Hs, Hd, Ht, Hc, Hf. simpl. rewrite !app_nil_r, <- !app_assoc.
  split; [reflexivity|]. split; [reflexivity|]. split; [reflexivity|].
  intros d. unfold renormalise_lookups. by rewrite Hd.
Qed.

Lemma nothing_denormalised_witness :
  let fkc := TestSchema.mk_column "notes" "nonk_id" false false true
               [ {| fk_table := "lookup_nonk_table"; fk_colname := "id" |} ] int_t in
  let notes :=
    {| tablename := "notes";
       columns :=
         [ TestSchema.mk_column "notes" "id" true false false [] int_t;
           TestSchema.mk_column "notes" "body" false false false [] str_t;
           fkc ] |} in
  part_foreign_keys notes = [fkc]
  /\ passes_raw TestSchema.metadata fkc = true
  /\ exists q f,
       denormalise_prepare TestSchema.metadata notes _tidy_colname
       = Ok (q, ["id"; "body"; "nonk_id"])
       /\ q_joins q = []
       /\ renormalise_prepare TestSchema.db_session TestSchema.metadata notes
            _tidy_colname = Ok f
       /\ forall d, f d = Ok d.
Proof.
  intros fkc notes.
  assert (Hfks : part_foreign_keys notes = [fkc]) by reflexivity.
  assert (Hraw : passes_raw TestSchema.metadata fkc = true)
    by (vm_compute; reflexivity).
  split; [exact Hfks|]. split; [exact Hraw|].
  destruct (nothing_denormalised TestSchema.db_session TestSchema.metadata notes
              _tidy_colname) as (q & f & Hq & Hj & Hf & Hid).
  { intros fk Hfk. rewrite Hfks in Hfk.
    apply list_elem_of_singleton in Hfk as ->. exact Hraw. }
  exists q, f. split; [exact Hq|]. split; [exact Hj|]. split; [exact Hf|exact Hid].
Defined.

(** X9: a natural key holds columns of the table that are no foreign keys.
    It is either a single unique column that is no primary key, or the
    primary-key sequence of the partition; and it is empty exactly when the
    table has no primary key outside its foreign keys and not exactly one
    unique "other" column. *)
Theorem find_natural_key_shape (t : Table) :
  (forall c, c ∈ find_natural_key t -> c ∈ columns t /\ foreign_keys c = [])
  /\ ((exists N, find_natural_key t = [N] /\ unique N = true /\ primary_key N = false)
      \/ (find_natural_key t = part_primary_keys t
          /\ forall c, c ∈ find_natural_key t -> primary_key c = true))
  /\ (find_natural_key t = []
      <-> length (List.filter unique (part_other t)) <> 1 /\ part_primary_keys t = []).
Proof.
  rewrite find_natural_key_unfold. fold (unique_others t).
  destruct (Nat.eqb (length (unique_others t)) 1) eqn:Hlen.
  - destruct (unique_others t) as [|N [|? ?]] eqn:Hu; try done.
    assert (HN : N ∈ unique_others t) by (rewrite Hu; constructor).
    unfold unique_others in HN. apply in_filter_iff in HN as [HN Huniq].
    pose proof (other_not_primary t N HN) as Hpk.
    rewrite part_other_filter in HN. apply in_filter_iff in HN as [HN Hoth].
    split; [|split].
    + intros c Hc. apply list_elem_of_singleton in Hc as ->. split; [done|].
      unfold is_other, is_fk in Hoth. apply andb_true_iff in Hoth as [Hfk _].
      apply negb_true_iff in Hfk. by destruct (foreign_keys N).
    + left. by exists N.
    + split; [done|]. simpl. intros [? _]. done.
  - apply Nat.eqb_neq in Hlen. split; [|split].
    + intros c Hc. rewrite part_primary_keys_filter in Hc.
      apply in_filter_iff in Hc as [Hc Hpk]. split; [done|].
      unfold is_pk, is_fk in Hpk. apply andb_true_iff in Hpk as [Hfk _].
      apply negb_true_iff in Hfk. by destruct (foreign_keys c).
    + right. split; [done|]. apply primary_keys_flagged.
    + split; [by intros ->|by intros [_ ?]].
Qed.

(** ** The lookup maps *)

Section BuildLookup.

Implicit Types (pairs pre post : list (Value * Value)) (m : gmap string Value).

Abbreviation file_pair :=
  (fun (m : gmap string Value) '(nat, surr) => <[py_str nat := surr]> m).

Lemma build_lookup_other pairs m (k : string) :
  k ∉ lookup_keys pairs -> fold_left file_pair pairs m !! k = m !! k.
Proof.
  revert m. induction pairs as [|[n s] pairs IH]; intros m Hk; simpl; [done|].
  unfold lookup_keys in Hk. simpl in Hk. apply not_elem_of_cons in Hk as [Hne Hk].
  rewrite IH by done. by rewrite lookup_insert_ne.
Qed.

Lemma build_lookup_last pre post m (n s : Value) :
  py_str n ∉ lookup_keys post ->
  fold_left file_pair (pre ++ (n, s) :: post) m !! py_str n = Some s.
Proof.
  intros Hpost. rewrite fold_left_app. simpl.
  rewrite build_lookup_other by done. apply lookup_insert_eq.
Qed.

Lemma build_lookup_from pairs m (k : string) (v : Value) :
  fold_left file_pair pairs m !! k = Some v ->
  m !! k = Some v \/ exists n, (n, v) ∈ pairs /\ py_str n = k.
Proof.
  revert m. induction pairs as [|[n s] pairs IH]; intros m; simpl; [by left|].
  intros H. apply IH in H as [H|(n' & Hin & Hk)].
  - apply lookup_insert_Some in H as [[<- <-]|[_ H]]; [|by left].
    right. exists n. split; [constructor|done].
  - right. exists n'. split; [by constructor|done].
Qed.

End BuildLookup.

(** X10: a lookup map files each pair under the text of its natural-key
    value, and a later pair with the same text replaces an earlier one.  A
    text that no pair has is not a key, the last pair with a text gives its
    value, and every value of the map is the surrogate of some pair. *)
Theorem build_lookup_spec (pairs : list (Value * Value)) :
  (forall k, k ∉ lookup_keys pairs -> build_lookup pairs !! k = None)
  /\ (forall pre n s post,
        pairs = pre ++ (n, s) :: post -> py_str n ∉ lookup_keys post ->
        build_lookup pairs !! py_str n = Some s)
  /\ (forall k v, build_lookup pairs !! k = Some v ->
        exists n, (n, v) ∈ pairs /\ py_str n = k).
Proof.
  unfold build_lookup. split; [|split].
  - intros k Hk. by rewrite build_lookup_other.
  - intros pre n s post -> Hpost. by apply build_lookup_last.
  - intros k v H. by apply build_lookup_from in H as [H|H].
Qed.

Lemma build_lookup_spec_witness :
  build_lookup [(VInt 5, VInt 1); (VStr "5", VInt 2); (VStr "x", VInt 3)] !! "5"
  = Some (VInt 2).
Proof.
  apply (proj1 (proj2 (build_lookup_spec
           [(VInt 5, VInt 1); (VStr "5", VInt 2); (VStr "x", VInt 3)]))
           [(VInt 5, VInt 1)] (VStr "5") (VInt 2) [(VStr "x", VInt 3)]).
  - reflexivity.
  - vm_compute. intros H. inversion H as [|? ? ? H']; inversion H'.
Defined.

(** X11: when the natural-key values of the remote table have distinct
    texts, the lookup map built from the session sends the text of every
    row's natural-key value to that row's surrogate value. *)
Theorem lookup_round_trip (sess : Session) (natural_key : Label)
    (surrogate_key : Column) (rows : list Row) (r : Row) :
  sess !! table surrogate_key = Some rows ->
  r ∈ rows ->
  NoDup (lookup_keys (lookup_query_all sess natural_key surrogate_key)) ->
  lookup_getitem (build_lookup (lookup_query_all sess natural_key surrogate_key))
    (VStr (py_str (default VNone (r !! name (element natural_key)))))
  = Ok (default VNone (r !! name surrogate_key)).
Proof.
  intros Hrows Hr Hnd. unfold lookup_query_all in *. rewrite Hrows in *. simpl in *.
  apply list_elem_of_split in Hr as (pre & post & ->).
  rewrite map_app in *. simpl in *.
  unfold lookup_keys in Hnd. rewrite map_app in Hnd. simpl in Hnd.
  apply NoDup_app in Hnd as (_ & _ & Hnd). apply NoDup_cons in Hnd as [Hnot _].
  unfold build_lookup. rewrite build_lookup_last; done.
Qed.

Lemma lookup_round_trip_witness :
  lookup_getitem
    (build_lookup
       (lookup_query_all TestSchema.db_session
          {| element := TestSchema.mk_column "lookup_table" "description" false true
                          false [] str_t;
             label_name := "accounttype_id" |}
          (TestSchema.mk_column "lookup_table" "id" true false false [] int_t)))
    (VStr "user")
  = Ok (VInt 2).
Proof.
  apply (lookup_round_trip TestSchema.db_session
           {| element := TestSchema.mk_column "lookup_table" "description" false true
                           false [] str_t;
              label_name := "accounttype_id" |}
           (TestSchema.mk_column "lookup_table" "id" true false false [] int_t)
           [ TestSchema.row [("id", VInt 1); ("description", VStr "admin")];
             TestSchema.row [("id", VInt 2); ("description", VStr "user")] ]
           (TestSchema.row [("id", VInt 2); ("description", VStr "user")])).
  - vm_compute. reflexivity.
  - repeat constructor.
  - compute_done.
Defined.

(** ** Rows the row maker refuses, and the keys of the rows it returns *)

(** X12: the row maker raises a key-lookup error when the row has no entry
    under the tidied name of a denormalised column, and also when the value
    there is not a text, an already resolved surrogate included: the keys
    of a lookup map are texts.  As before, no earlier column may have that
    tidied name as its original name. *)
Theorem row_maker_refuses (pre post : list Lookup) (csv sql : string)
    (L : gmap string Value) (d : Row) :
  csv ∉ map sql_of pre ->
  (d !! csv = None \/ exists v, d !! csv = Some v /\ forall s, v <> VStr s) ->
  exists k, _row_maker (pre ++ (csv, sql, L) :: post) d = Raise (KeyError k).
Proof.
  intros Hpre Hd. apply row_maker_miss; [done|].
  destruct Hd as [Hd|(v & Hd & Hv)]; [by left|].
  right. exists v. split; [done|].
  destruct v; try done. by destruct (Hv s).
Qed.

Lemma row_maker_refuses_witness :
  exists k,
    _row_maker [("accounttype", "accounttype_id",
                 <["1" := VInt 1]> (∅ : gmap string Value))]
      (<["accounttype" := VInt 1]> (∅ : Row))
    = Raise (KeyError k).
Proof.
  apply (row_maker_refuses [] [] "accounttype" "accounttype_id").
  - apply not_elem_of_nil.
  - right. exists (VInt 1). split; [reflexivity|]. intros s. discriminate.
Defined.




(** ** More on the type coercer *)

Section TypeCoercerMore.

Variable dateutil_parse : string -> Result Value.

Abbreviation coercer c :=
  (default (fun x => Ok (VStr x)) (_COERCE dateutil_parse (python_type c))).

(** A successful run found an accepting coercer for every text. *)
Lemma row_coercer_accepts (cs : gmap string (string -> Result Value))
    (d0 d r : Row) :
  map_fold (coerce_entry cs) (Ok d0) d = Ok r ->
  forall k s, d !! k = Some (VStr s) -> exists f v, cs !! k = Some f /\ f s = Ok v.
Proof.
  revert r.
  apply (map_fold_weak_ind
           (fun acc (m : Row) =>
              forall r, acc = Ok r ->
                forall k s, m !! k = Some (VStr s) ->
                  exists f v, cs !! k = Some f /\ f s = Ok v)).
  - intros r _ k s Hk. by rewrite lookup_empty in Hk.
  - intros i x m acc Hi IH r Hrun k s Hk.
    unfold coerce_entry in Hrun. destruct acc as [r0|e]; simpl in Hrun; [|done].
    apply lookup_insert_Some in Hk as [[<- ->]|[_ Hk]]; [|by eapply IH].
    destruct (cs !! i) as [f|]; [|done]. exists f.
    destruct (f s) as [v|e]; [|done]. by exists v.
Qed.

(** What a successful run returns. *)
Lemma row_coercer_result (cs : gmap string (string -> Result Value)) (d r : Row) :
  map_fold (coerce_entry cs) (Ok d) d = Ok r ->
  forall k, r !! k = coerced cs d k.
Proof.
  intros Hrun.
  destruct (row_coercer_total cs d) as (r' & Hrun' & Hr').
  { by eapply row_coercer_accepts. }
  rewrite Hrun in Hrun'. by injection Hrun' as <-.
Qed.

Lemma coerceables_fold_from (l : list Column)
    (m : gmap string (string -> Result Value)) (k : string)
    (f : string -> Result Value) :
  fold_left (fun (m : gmap string (string -> Result Value)) c =>
               <[name c := coercer c]> m) l m !! k = Some f ->
  m !! k = Some f \/ exists c, c ∈ l /\ name c = k /\ f = coercer c.
Proof.
  revert m. induction l as [|x l IH]; intros m; simpl; [by left|].
  intros H. apply IH in H as [H|(c & Hc & Hk & Hf)].
  - apply lookup_insert_Some in H as [[<- <-]|[_ H]]; [|by left].
    right. exists x. split; [constructor|done].
  - right. exists c. split; [by constructor|done].
Qed.

(** Every coercer of the table is the coercer of one of its columns. *)
Lemma coerceables_from (t : Table) (k : string) (f : string -> Result Value) :
  coerceables dateutil_parse t !! k = Some f ->
  exists c, c ∈ columns t /\ name c = k /\ f = coercer c.
Proof.
  unfold coerceables. intros H. apply coerceables_fold_from in H as [H|H]; [|done].
  by rewrite lookup_empty in H.
Qed.

(** X14: a row without text values is returned as it is, whatever its keys
    and whatever the table. *)
Theorem type_coercer_no_text (t : Table) (d : Row) :
  (forall k v, d !! k = Some v -> forall s, v <> VStr s) ->
  type_coercer dateutil_parse t d = Ok d.
Proof.
  intros Hd.
  destruct (row_coercer_total (coerceables dateutil_parse t) d) as (r & Hrun & Hr).
  { intros k s Hk. by destruct (Hd k _ Hk s). }
  unfold type_coercer. rewrite Hrun. f_equal. apply map_eq. intros k.
  rewrite Hr. unfold coerced. destruct (d !! k) as [v|] eqn:Hk; [|done].
  destruct v; try done. by destruct (Hd k _ Hk s).
Qed.

(** X15: with distinct column names, [type_coercer] returns a row exactly
    when every text of the input row is under the name of a column, and is
    accepted by the date parser where that column is a date or a
    datetime. *)
Theorem type_coercer_succeeds_iff (t : Table) (d : Row) :
  distinct_names t ->
  is_Ok (type_coercer dateutil_parse t d)
  <-> forall k s, d !! k = Some (VStr s) ->
        exists c, c ∈ columns t /\ name c = k
                  /\ (parsed_type (python_type c) = true -> is_Ok (dateutil_parse s)).
Proof.
  intros Hnd. split.
  - intros [r Hrun] k s Hk.
    destruct (row_coercer_accepts _ _ _ _ Hrun k s Hk) as (f & v & Hf & Hv).
    apply coerceables_from in Hf as (c & Hc & Hname & ->).
    exists c. split; [done|]. split; [done|]. intros Hty.
    destruct (python_type c); try done; simpl in Hv; by exists v.
  - intros Hall.
    destruct (row_coercer_total (coerceables dateutil_parse t) d) as (r & Hrun & _).
    { intros k s Hk. destruct (Hall k s Hk) as (c & Hc & <- & Hparse).
      exists (coercer c). rewrite coerceables_lookup by done.
      destruct (python_type c) eqn:Hty; simpl;
        try (eexists; split; reflexivity);
        destruct (Hparse eq_refl) as [v Hv]; exists v; by rewrite Hv. }
    by exists r.
Qed.

(** X16: in a row that [type_coercer] returns, the text of a column that
    is neither boolean nor date nor datetime is still that text (a number
    is not parsed), and the text of a date or datetime column is replaced
    by what the date parser returned for it. *)
Theorem type_coercer_other_columns (t : Table) (d r : Row) (c : Column) (s : string) :
  distinct_names t ->
  type_coercer dateutil_parse t d = Ok r ->
  c ∈ columns t ->
  d !! name c = Some (VStr s) ->
  (python_type c <> bool_t -> parsed_type (python_type c) = false ->
   r !! name c = Some (VStr s))
  /\ (parsed_type (python_type c) = true ->
      exists v, dateutil_parse s = Ok v /\ r !! name c = Some v).
Proof.
  intros Hnd Hrun Hc Hd.
  pose proof (row_coercer_result _ _ _ Hrun (name c)) as Hr.
  destruct (row_coercer_accepts _ _ _ _ Hrun (name c) s Hd) as (f & v & Hf & Hv).
  unfold coerced in Hr. rewrite Hd, Hf, Hv in Hr.
  rewrite coerceables_lookup in Hf by done. injection Hf as <-.
  split.
  - intros Hb Hp. rewrite Hr. destruct (python_type c); try done;
      simpl in Hv; by injection Hv as <-.
  - intros Hp. exists v. split; [|done].
    destruct (python_type c); try done.
Qed.

(** X17: when the date parser returns no text, coercing a coerced row
    changes nothing: the second call returns the row it is given. *)
Theorem type_coercer_idempotent (t : Table) (d r : Row) :
  (forall s v, dateutil_parse s = Ok v -> forall s', v <> VStr s') ->
  type_coercer dateutil_parse t d = Ok r ->
  type_coercer dateutil_parse t r = Ok r.
Proof.
  intros Hparse Hrun.
  pose proof (row_coercer_result _ _ _ Hrun) as Hr.
  assert (Htext : forall k s, r !! k = Some (VStr s) ->
            exists f, coerceables dateutil_parse t !! k = Some f
                      /\ f s = Ok (VStr s)).
  { intros k s Hk. rewrite Hr in Hk. unfold coerced in Hk.
    destruct (d !! k) as [v0|] eqn:Hd; [|done].
    destruct v0 as [| | |s0|]; try done.
    destruct (coerceables dateutil_parse t !! k) as [f|] eqn:Hf; [|done].
    exists f. split; [done|].
    destruct (f s0) as [v|] eqn:Hv; [|done]. injection Hk as ->.
    apply coerceables_from in Hf as (c & _ & _ & ->).
    destruct (python_type c); simpl in *; try done;
      try (by injection Hv as ->);
      by destruct (Hparse _ _ Hv s). }
  destruct (row_coercer_total (coerceables dateutil_parse t) r) as (r2 & Hrun2 & Hr2).
  { intros k s Hk. destruct (Htext k s Hk) as (f & Hf & Hv). eauto. }
  unfold type_coercer. rewrite Hrun2. f_equal. apply map_eq. intros k.
  rewrite Hr2. unfold coerced. destruct (r !! k) as [v|] eqn:Hk; [|done].
  destruct v; try done.
  destruct (Htext k s Hk) as (f & -> & ->). done.
Qed.

End TypeCoercerMore.

(** X18: a successful run of [type_coercer] neither adds nor removes a
    key of the row. *)
Theorem type_coercer_keeps_keys (dateutil_parse : string -> Result Value)
    (t : Table) (d r : Row) :
  type_coercer dateutil_parse t d = Ok r -> dom r = dom d.
Proof.
  intros Hrun. apply set_eq. intros k. rewrite !elem_of_dom.
  rewrite (row_coercer_result _ _ _ Hrun k).
  unfold coerced. destruct (d !! k) as [v|] eqn:Hd.
  - split; [by eauto|]. intros _.
    destruct v as [| | |s|]; try by eauto.
    destruct (row_coercer_accepts _ _ _ _ Hrun k s Hd) as (f & v & -> & ->).
    by eauto.
  - split; intros [? ?]; done.
Qed.

Lemma type_coercer_no_text_witness :
  let parse := fun s => Raise (ParserError s) in
  let d := <["age" := VInt 31]> (<["comment" := VNone]> (∅ : Row)) in
  type_coercer parse TestSchema.NormalisedTable d = Ok d.
Proof.
  intros parse d. apply type_coercer_no_text.
  intros k v Hk s ->. unfold d in Hk.
  apply lookup_insert_Some in Hk as [[_ [=]]|[_ Hk]].
  apply lookup_insert_Some in Hk as [[_ [=]]|[_ Hk]].
  by rewrite lookup_empty in Hk.
Defined.

Lemma type_coercer_succeeds_iff_witness :
  let parse := fun s =>
    if String.eqb s "2020-02-29" then Ok (VDateTime s) else Raise (ParserError s) in
  let day := TestSchema.mk_column "events" "day" false false false [] date_t in
  let title := TestSchema.mk_column "events" "title" false false false [] str_t in
  let t := {| tablename := "events"; columns := [day; title] |} in
  let d := <["day" := VStr "2020-02-29"]> (<["title" := VStr "leap"]> (∅ : Row)) in
  is_Ok (type_coercer parse t d).
Proof.
  intros parse day title t d.
  apply (proj2 (type_coercer_succeeds_iff parse t d ltac:(unfold distinct_names; compute_done))).
  intros k s Hk. unfold d in Hk.
  apply lookup_insert_Some in Hk as [[<- [= <-]]|[_ Hk]].
  { exists day. split; [repeat constructor|]. split; [reflexivity|].
    intros _. by eexists. }
  apply lookup_insert_Some in Hk as [[<- [= <-]]|[_ Hk]].
  { exists title. split; [repeat constructor|]. split; [reflexivity|].
    intros [=]. }
  by rewrite lookup_empty in Hk.
Defined.

Lemma type_coercer_other_columns_witness :
  let parse := fun s =>
    if String.eqb s "2020-02-29" then Ok (VDateTime s) else Raise (ParserError s) in
  let day := TestSchema.mk_column "events" "day" false false false [] date_t in
  let seats := TestSchema.mk_column "events" "seats" false false false [] int_t in
  let t := {| tablename := "events"; columns := [day; seats] |} in
  let d := <["day" := VStr "2020-02-29"]> (<["seats" := VStr "12"]> (∅ : Row)) in
  exists r, type_coercer parse t d = Ok r
    /\ r !! "seats" = Some (VStr "12")
    /\ exists v, parse "2020-02-29" = Ok v /\ r !! "day" = Some v.
Proof.
  intros parse day seats t d.
  destruct (type_coercer parse t d) as [r|e] eqn:Hrun;
    [|vm_compute in Hrun; discriminate].
  exists r. split; [reflexivity|]. split.
  - apply (proj1 (type_coercer_other_columns parse t d r seats "12"
                    ltac:(unfold distinct_names; compute_done) Hrun
                    ltac:(repeat constructor) eq_refl)); [discriminate|reflexivity].
  - apply (proj2 (type_coercer_other_columns parse t d r day "2020-02-29"
                    ltac:(unfold distinct_names; compute_done) Hrun
                    ltac:(repeat constructor) eq_refl)). reflexivity.
Defined.

Lemma type_coercer_idempotent_witness :
  let parse := fun s =>
    if String.eqb s "2020-02-29" then Ok (VDateTime s) else Raise (ParserError s) in
  let day := TestSchema.mk_column "events" "day" false false false [] date_t in
  let open := TestSchema.mk_column "events" "open" false false false [] bool_t in
  let t := {| tablename := "events"; columns := [day; open] |} in
  let d := <["day" := VStr "2020-02-29"]> (<["open" := VStr "True"]> (∅ : Row)) in
  exists r, type_coercer parse t d = Ok r /\ type_coercer parse t r = Ok r.
Proof.
  intros parse day open t d.
  destruct (type_coercer parse t d) as [r|e] eqn:Hrun;
    [|vm_compute in Hrun; discriminate].
  exists r. split; [reflexivity|].
  apply (type_coercer_idempotent parse t d r); [|exact Hrun].
  intros s v Hv s' ->. unfold parse in Hv.
  destruct (String.eqb s "2020-02-29"); discriminate.
Defined.

Lemma type_coercer_keeps_keys_witness :
  let parse := fun s => Raise (ParserError s) in
  let d := <["valid" := VStr "True"]> (<["age" := VStr "31"]> (∅ : Row)) in
  exists r, type_coercer parse TestSchema.NormalisedTable d = Ok r
    /\ dom r = dom d.
Proof.
  intros parse d.
  destruct (type_coercer parse TestSchema.NormalisedTable d) as [r|e] eqn:Hrun;
    [|vm_compute in Hrun; discriminate].
  exists r. split; [reflexivity|].
  exact (type_coercer_keeps_keys parse TestSchema.NormalisedTable d r Hrun).
Defined.

(** ** More on the empty deleter *)

(** What a successful run of the loop did to each key. *)
Lemma row_cleaner_only_strips (cols : list string) (c c' : Row) :
  _row_cleaner cols c = Ok c' ->
  (forall k, c' !! k = c !! k
             \/ (c' !! k = None /\ k ∈ cols /\ c !! k = Some (VStr "")))
  /\ (forall k, k ∈ cols -> c' !! k <> Some (VStr "")).
Proof.
  revert c. induction cols as [|x rest IH]; intros c; simpl.
  - intros [= <-]. split; [by left|]. intros k Hk. by apply elem_of_nil in Hk.
  - destruct (c !! x) as [w|] eqn:Hx; [|done].
    case_bool_decide as Hemp; intros Hrun;
      destruct (IH _ Hrun) as [Hkeys Hleft].
    + subst w.
      assert (Hcx : c' !! x = None).
      { destruct (Hkeys x) as [H|[H _]]; [|done].
        by rewrite lookup_delete_eq in H. }
      split.
      * intros k. destruct (decide (k = x)) as [->|Hne].
        { right. split; [done|]. split; [constructor|done]. }
        destruct (Hkeys k) as [H|(H & Hin & Hk)].
        -- left. by rewrite lookup_delete_ne in H.
        -- right. split; [done|]. split; [by constructor|].
           by rewrite lookup_delete_ne in Hk.
      * intros k Hk. apply elem_of_cons in Hk as [->|Hk]; [by rewrite Hcx|].
        by apply Hleft.
    + split.
      * intros k. destruct (Hkeys k) as [H|(H & Hin & Hk)]; [by left|].
        right. split; [done|]. split; [by constructor|done].
      * intros k Hk. apply elem_of_cons in Hk as [->|Hk]; [|by apply Hleft].
        destruct (Hkeys x) as [H|[H _]]; rewrite H; [|done].
        rewrite Hx. congruence.
Qed.

(** X19: whenever [empty_deleter] returns a row, the input row had every
    nullable column as a key, the result is a part of the input row, every
    entry it lacks was an empty string under a nullable column, and no
    nullable column is left with an empty string.  No assumption on the
    table is needed. *)
Theorem empty_deleter_only_strips (t : Table) (d r : Row) :
  empty_deleter t d = Ok r ->
  (forall k, k ∈ nullables t -> is_Some (d !! k))
  /\ r ⊆ d
  /\ (forall k, is_Some (d !! k) -> r !! k = None ->
        k ∈ nullables t /\ d !! k = Some (VStr ""))
  /\ (forall k, k ∈ nullables t -> r !! k <> Some (VStr "")).
Proof.
  unfold empty_deleter. intros Hrun.
  destruct (row_cleaner_only_strips _ _ _ Hrun) as [Hkeys Hleft].
  split; [|split; [|split]].
  - intros k Hk. destruct (d !! k) as [v|] eqn:Hd; [by eauto|].
    destruct (row_cleaner_missing _ _ _ Hk Hd) as [e He].
    rewrite Hrun in He. discriminate.
  - apply map_subseteq_spec. intros k v Hk.
    by eapply row_cleaner_shrinks.
  - intros k [v Hd] Hr. destruct (Hkeys k) as [H|(_ & Hin & Hk)]; [|done].
    rewrite Hr, Hd in H. discriminate.
  - exact Hleft.
Qed.

Lemma empty_deleter_only_strips_witness :
  let d := <["name" := VStr ""]> (<["nonk_id" := VStr "1"]>
             (<["age" := VStr ""]> (∅ : Row))) in
  exists r, empty_deleter TestSchema.NormalisedTable d = Ok r
    /\ r ⊆ d
    /\ r !! "name" <> Some (VStr "")
    /\ (r !! "age" = None ->
        "age" ∈ nullables TestSchema.NormalisedTable /\ d !! "age" = Some (VStr "")).
Proof.
  intros d.
  destruct (empty_deleter TestSchema.NormalisedTable d) as [r|e] eqn:Hrun;
    [|vm_compute in Hrun; discriminate].
  destruct (empty_deleter_only_strips TestSchema.NormalisedTable d r Hrun)
    as (_ & Hsub & Hgone & Hleft).
  exists r. split; [reflexivity|]. split; [exact Hsub|]. split.
  - apply Hleft. vm_compute. repeat constructor.
  - apply Hgone. by eexists.
Defined.
